(** * Visionary: the image request client and the realtime sync adapter

    A shallow embedding of [src/App.tsx]: the retrying request helper
    [generateImage], the auth-scoped Firestore listener wiring of the
    [App] component, the snapshot callback, and the approve / delete /
    generate handlers, followed by the properties of the specification
    that concern them. *)

From Stdlib Require Import ZArith Lia Ascii String.
From stdpp Require Import base option list strings gmap sorting.
From Equations Require Import Equations.

Local Open Scope string_scope.
Local Open Scope Z_scope.
Local Open Scope list_scope.

(** ** JavaScript conventions used by the source *)

(** [!s] on a [string]: the empty string is falsy. *)
Definition truthy (s : string) : bool :=
  match s with
  | EmptyString => false
  | String _ _ => true
  end.

(** [!x] on a [string | null | undefined]: absent values and the empty
    string are falsy. *)
Definition truthy_opt (x : option string) : bool :=
  match x with
  | Some s => truthy s
  | None => false
  end.

(** [String.prototype.split] with a one-character separator: the pieces
    between the occurrences of [sep], in order; a string without [sep]
    is returned whole as the only piece. *)
Fixpoint split (sep : ascii) (s : string) : list string :=
  match s with
  | EmptyString => [EmptyString]
  | String c rest =>
      if Ascii.eqb c sep then EmptyString :: split sep rest
      else match split sep rest with
           | piece :: pieces => String c piece :: pieces
           | [] => [String c EmptyString]
           end
  end.

Definition comma : ascii := ","%char.

(** ** The image request client *)

Module ImageRequest.

(** [const apiKey], the empty string in the source. *)
Definition apiKey : string := EmptyString.

Definition gemini_url : string :=
  "https://generativelanguage.googleapis.com/v1beta/models/gemini-2.5-flash-image-preview:generateContent?key="
    +:+ apiKey.

Definition imagen_url : string :=
  "https://generativelanguage.googleapis.com/v1beta/models/imagen-4.0-generate-001:predict?key="
    +:+ apiKey.

(** The two object literals handed to [JSON.stringify]. A property whose
    value is [undefined] is left out by [JSON.stringify], so the [data]
    of the inline image is an option. *)
Inductive RequestBody : Type :=
| GeminiBody (text : string) (mimeType : string) (data : option string)
             (responseModalities : list string)
| ImagenBody (prompt : string) (sampleCount : Z).

Record Request : Type := mkRequest {
  url : string;
  method : string;
  contentType : string;
  body : RequestBody
}.

(** The parts of the response JSON that the extraction code reads. *)
Record InlineData : Type := { data : option string }.
Record Part : Type := { inlineData : option InlineData }.
Record Content : Type := { parts : option (list Part) }.
Record Candidate : Type := { content : option Content }.
Record Prediction : Type := { bytesBase64Encoded : option string }.
Record ResponseJson : Type := {
  candidates : option (list Candidate);
  predictions : option (list Prediction)
}.

(** What one [fetch] (followed by [response.json()]) can come to:
    [fetch] itself rejects, or a response arrives with its [ok] flag,
    its status and its body, where [None] stands for a body on which
    [response.json()] rejects. *)
Inductive FetchOutcome : Type :=
| NetworkFailure
| Response (ok : bool) (status : Z) (json : option ResponseJson).

(** The errors caught by the [catch] block. *)
Inductive Error : Type :=
| FetchRejected
| HttpError (status : Z)
| JsonRejected
| NoImageFromSketch
| InvalidResponseFormat.

(** What a call does that can be observed from outside: the requests it
    sends and the waits between them ([console.warn] is left out). *)
Inductive Event : Type :=
| Fetch (r : Request)
| Sleep (ms : Z).

(** The state threaded through a call: the number of requests answered
    so far (the index of the next answer of the network) and the
    events performed, oldest first. *)
Record Client : Type := mkClient {
  answered : nat;
  trace : list Event
}.

Definition start : Client := mkClient 0 [].

(** A state and error monad for the asynchronous code. *)
Definition M (A : Type) : Type := Client -> (Error + A) * Client.

Definition bind {A B} (m : M A) (k : A -> M B) : M B :=
  fun c => match m c with
           | (inr a, c') => k a c'
           | (inl e, c') => (inl e, c')
           end.

Definition lift {A} (r : Error + A) : M A := fun c => (r, c).

Notation "'await' x ':=' m 'in' k" := (bind m (fun x => k))
  (at level 10, x name, m at level 100, k at level 200).

Definition delays : list Z := [1000; 2000; 4000; 8000; 16000].

(** [delays[retries]]; [setTimeout] takes a missing delay as 0. *)
Definition delay (retries : nat) : Z := nth retries delays 0.

Section Network.

(** The answers of the network, by request number. *)
Variable net : nat -> FetchOutcome.

Definition fetch (r : Request) : M FetchOutcome :=
  fun c => (inr (net (answered c)),
            mkClient (S (answered c)) (trace c ++ [Fetch r])).

Definition setTimeout (ms : Z) : M unit :=
  fun c => (inr tt, mkClient (answered c) (trace c ++ [Sleep ms])).

(** Lines 36-62: the endpoint and the body. *)
Definition build_request (prompt : string) (imageBase64 : option string)
  : Request * bool :=
  if truthy_opt imageBase64 then
    let base64Data := split comma (default EmptyString imageBase64) !! 1%nat in
    (mkRequest gemini_url "POST" "application/json"
       (GeminiBody prompt "image/png" base64Data ["IMAGE"]), true)
  else
    (mkRequest imagen_url "POST" "application/json"
       (ImagenBody prompt 1), false).

(** [result.candidates?.[0]?.content?.parts?.find(p => p.inlineData)?.inlineData?.data] *)
Definition gemini_image (result : ResponseJson) : option string :=
  cs ← candidates result;
  c ← head cs;
  ct ← content c;
  ps ← parts ct;
  p ← head (filter (fun p => is_Some (inlineData p)) ps);
  i ← inlineData p;
  data i.

(** Lines 76-88: the image carried by a decoded body. *)
Definition extract (isGemini : bool) (result : ResponseJson) : Error + string :=
  if isGemini then
    match gemini_image result with
    | Some base64 => if truthy base64 then inr base64 else inl NoImageFromSketch
    | None => inl NoImageFromSketch
    end
  else
    match predictions result with
    | Some (p :: _) =>
        match bytesBase64Encoded p with
        | Some base64 => if truthy base64 then inr base64 else inl InvalidResponseFormat
        | None => inl InvalidResponseFormat
        end
    | _ => inl InvalidResponseFormat
    end.

(** Lines 70-90: what the [try] block makes of the answer to its
    request. *)
Definition decode (isGemini : bool) (outcome : FetchOutcome) : Error + string :=
  match outcome with
  | NetworkFailure => inl FetchRejected
  | Response ok status json =>
      if negb ok then inl (HttpError status)
      else match json with
           | None => inl JsonRejected
           | Some result =>
               match extract isGemini result with
               | inr base64 => inr ("data:image/png;base64," +:+ base64)
               | inl e => inl e
               end
           end
  end.

(** The [try] block, lines 35-90. *)
Definition attempt (prompt : string) (imageBase64 : option string) : M string :=
  let '(request, isGemini) := build_request prompt imageBase64 in
  await outcome := fetch request in
  lift (decode isGemini outcome).

(** [generateImage], lines 32-101. The recursion of the [catch] block
    stops because [retries] grows towards 5. *)
Equations? generateImage (prompt : string) (imageBase64 : option string)
  (retries : nat) (c : Client) : (Error + string) * Client
  by wf (5 - retries)%nat lt :=
  generateImage prompt imageBase64 retries c
    with attempt prompt imageBase64 c := {
    | (inr uri, c1) => (inr uri, c1)
    | (inl error, c1) with lt_dec retries 5 := {
      | left _ =>
          generateImage prompt imageBase64 (retries + 1)
            (snd (setTimeout (delay retries) c1))
      | right _ => (inl error, c1)
      }
    }.
Proof. lia. Qed.

End Network.

(** Whether the [try] block throws on an answer: a non-success status,
    a body without the expected image, or a rejected [fetch] or
    [json()]. *)
Definition failed (isGemini : bool) (outcome : FetchOutcome) : bool :=
  match decode isGemini outcome with
  | inl _ => true
  | inr _ => false
  end.

(** The request every attempt of a call sends, and the extraction it
    uses. *)
Definition request_of (prompt : string) (imageBase64 : option string) : Request :=
  fst (build_request prompt imageBase64).

Definition isGemini_of (imageBase64 : option string) : bool :=
  truthy_opt imageBase64.

(** Reading a trace: the requests sent and the waits, in order. *)
Definition fetches (t : list Event) : list Request :=
  omap (fun e => match e with Fetch r => Some r | Sleep _ => None end) t.

Definition sleeps (t : list Event) : list Z :=
  omap (fun e => match e with Sleep ms => Some ms | Fetch _ => None end) t.

(** [n] failed attempts starting at retry count [r]: each one a request
    followed by the wait before the next attempt. *)
Fixpoint failed_attempts (req : Request) (r n : nat) : list Event :=
  match n with
  | O => []
  | S n' => Fetch req :: Sleep (delay r) :: failed_attempts req (S r) n'
  end.

Fixpoint has_comma (s : string) : bool :=
  match s with
  | EmptyString => false
  | String c rest => Ascii.eqb c comma || has_comma rest
  end.

(** A data URL, [header,payload], as [FileReader.readAsDataURL] yields
    it: the payload is the base64 text of the image bytes. *)
Definition data_url (header payload : string) : string :=
  header +:+ "," +:+ payload.

End ImageRequest.

(** ** The App component: view state, Firebase handles, handlers *)

Module App.

Inductive DesignMode : Type := fashion | architecture.

Definition mode_name (m : DesignMode) : string :=
  match m with
  | fashion => "fashion"
  | architecture => "architecture"
  end.

(** [interface ApprovedDesign]. The [mode] of a record read back from
    the store is whatever string the document holds, and [createdAt]
    is a millisecond time stamp ([Date.now()]), an integer. *)
Record ApprovedDesign : Type := mkDesign {
  id : string;
  prompt : string;
  style : string;
  mode : string;
  imageUrl : string;
  createdAt : Z
}.

(** [doc.data()], of type [Omit<ApprovedDesign, 'id'>]; the source reads
    [mode] through [(data as any).mode] because a document may lack it. *)
Record DocData : Type := mkData {
  d_prompt : string;
  d_style : string;
  d_mode : option string;
  d_imageUrl : string;
  d_createdAt : Z
}.

Record Doc : Type := mkDoc {
  doc_id : string;
  doc_data : DocData
}.

(** [a || b] on strings that may be missing. *)
Definition or_else (a : option string) (b : string) : string :=
  match a with
  | Some s => if truthy s then s else b
  | None => b
  end.

(** The object literal of lines 382-386,
    [{ id: doc.id, mode: data.mode || 'fashion', ...data }]:
    the properties written first, then every property of [data] written
    over them by the spread. *)
Definition to_design (doc : Doc) : ApprovedDesign :=
  let data := doc_data doc in
  let literal_mode := or_else (d_mode data) "fashion" in
  {| id := doc_id doc;
     mode := match d_mode data with
             | Some m => m
             | None => literal_mode
             end;
     prompt := d_prompt data;
     style := d_style data;
     imageUrl := d_imageUrl data;
     createdAt := d_createdAt data |}.

(** [Array.prototype.sort] with a comparator. The language fixes its
    result for a consistent comparator: the stable arrangement in which
    [a] stands before [b] whenever [cmp a b < 0]. Insertion from the
    right is one algorithm that produces that arrangement. *)
Section Sort.
Context {A : Type} (cmp : A -> A -> Z).

Fixpoint insert_by (x : A) (l : list A) : list A :=
  match l with
  | [] => [x]
  | y :: l' => if Z.leb (cmp x y) 0 then x :: y :: l' else y :: insert_by x l'
  end.

Definition sort_by (l : list A) : list A := foldr insert_by [] l.
End Sort.

(** [(a, b) => b.createdAt - a.createdAt] *)
Definition by_newest (a b : ApprovedDesign) : Z := createdAt b - createdAt a.

Inductive Firestore : Type := firestoreDb.
Inductive Auth : Type := firebaseAuth.
Record User : Type := mkUser { uid : string }.

Record HistoryItem : Type := mkHistory {
  h_id : Z;
  h_url : string;
  h_prompt : string;
  h_mode : DesignMode;
  h_style : string;
  hasSketch : bool
}.

(** The [useState] cells of [App] that the modelled code touches. *)
Record View : Type := mkView {
  v_mode : DesignMode;
  inputText : string;
  selectedStyle : string;
  loading : bool;
  currentImage : option string;
  history : list HistoryItem;
  error : option string;
  sketchImage : option string;
  db : option Firestore;
  auth : option Auth;
  userId : option string;
  approvedDesigns : list ApprovedDesign;
  isDbLoading : bool
}.

Definition setLoading (b : bool) (v : View) : View :=
  mkView (v_mode v) (inputText v) (selectedStyle v) b (currentImage v)
    (history v) (error v) (sketchImage v) (db v) (auth v) (userId v)
    (approvedDesigns v) (isDbLoading v).

Definition setCurrentImage (i : option string) (v : View) : View :=
  mkView (v_mode v) (inputText v) (selectedStyle v) (loading v) i
    (history v) (error v) (sketchImage v) (db v) (auth v) (userId v)
    (approvedDesigns v) (isDbLoading v).

Definition setHistory (f : list HistoryItem -> list HistoryItem) (v : View) : View :=
  mkView (v_mode v) (inputText v) (selectedStyle v) (loading v) (currentImage v)
    (f (history v)) (error v) (sketchImage v) (db v) (auth v) (userId v)
    (approvedDesigns v) (isDbLoading v).

Definition setError (e : option string) (v : View) : View :=
  mkView (v_mode v) (inputText v) (selectedStyle v) (loading v) (currentImage v)
    (history v) e (sketchImage v) (db v) (auth v) (userId v)
    (approvedDesigns v) (isDbLoading v).

Definition setUserId (u : option string) (v : View) : View :=
  mkView (v_mode v) (inputText v) (selectedStyle v) (loading v) (currentImage v)
    (history v) (error v) (sketchImage v) (db v) (auth v) u
    (approvedDesigns v) (isDbLoading v).

Definition setApprovedDesigns (l : list ApprovedDesign) (v : View) : View :=
  mkView (v_mode v) (inputText v) (selectedStyle v) (loading v) (currentImage v)
    (history v) (error v) (sketchImage v) (db v) (auth v) (userId v)
    l (isDbLoading v).

Definition setIsDbLoading (b : bool) (v : View) : View :=
  mkView (v_mode v) (inputText v) (selectedStyle v) (loading v) (currentImage v)
    (history v) (error v) (sketchImage v) (db v) (auth v) (userId v)
    (approvedDesigns v) b.

(** A snapshot listener registered with the store: the identity it was
    opened for and the collection it watches. *)
Record Listener : Type := mkListener {
  scope : string;
  path : string
}.

(** Writes issued to the store, with what the store answered. *)
Inductive StoreOp : Type :=
| AddDoc (collection : string) (design : DocData) (accepted : bool)
| DeleteDoc (collection : string) (doc : string) (accepted : bool).

(** The component together with what it shares with the SDK: the
    [unsubscribeRef] cell, the snapshot listeners the store currently
    serves (keyed by the handle that [onSnapshot] returned), whether the
    auth-state callback is registered, the user the [Auth] instance
    currently holds, and the logs of store writes and of network
    events. *)
Record World : Type := mkWorld {
  view : View;
  unsubscribeRef : option nat;
  listeners : gmap nat Listener;
  next_handle : nat;
  authSubscribed : bool;
  currentUser : option User;
  store_log : list StoreOp;
  network_log : list ImageRequest.Event
}.

Definition on_view (f : View -> View) (w : World) : World :=
  mkWorld (f (view w)) (unsubscribeRef w) (listeners w) (next_handle w)
    (authSubscribed w) (currentUser w) (store_log w) (network_log w).

Definition set_ref (r : option nat) (w : World) : World :=
  mkWorld (view w) r (listeners w) (next_handle w)
    (authSubscribed w) (currentUser w) (store_log w) (network_log w).

Definition set_authSubscribed (b : bool) (w : World) : World :=
  mkWorld (view w) (unsubscribeRef w) (listeners w) (next_handle w)
    b (currentUser w) (store_log w) (network_log w).

Definition set_currentUser (u : option User) (w : World) : World :=
  mkWorld (view w) (unsubscribeRef w) (listeners w) (next_handle w)
    (authSubscribed w) u (store_log w) (network_log w).

Definition log_store (op : StoreOp) (w : World) : World :=
  mkWorld (view w) (unsubscribeRef w) (listeners w) (next_handle w)
    (authSubscribed w) (currentUser w) (store_log w ++ [op]) (network_log w).

Definition log_network (evs : list ImageRequest.Event) (w : World) : World :=
  mkWorld (view w) (unsubscribeRef w) (listeners w) (next_handle w)
    (authSubscribed w) (currentUser w) (store_log w) (network_log w ++ evs).

(** [onSnapshot(query, next, error)]: the store starts serving a new
    listener and hands back its handle. *)
Definition onSnapshot (l : Listener) (w : World) : nat * World :=
  (next_handle w,
   mkWorld (view w) (unsubscribeRef w) (<[next_handle w := l]> (listeners w))
     (S (next_handle w)) (authSubscribed w) (currentUser w) (store_log w)
     (network_log w)).

(** Calling the function that [onSnapshot] returned. *)
Definition unsubscribe (h : nat) (w : World) : World :=
  mkWorld (view w) (unsubscribeRef w) (delete h (listeners w))
    (next_handle w) (authSubscribed w) (currentUser w) (store_log w)
    (network_log w).

Definition present {A : Type} (x : option A) : bool :=
  match x with
  | Some _ => true
  | None => false
  end.

Section Handlers.

(** The global [__app_id], which may be undefined, and the built-in
    [String.prototype.trim]. *)
Variable __app_id : option string.
Variable trim : string -> string.

Definition appId : string := default "default-app-id" __app_id.

(** [`/artifacts/${appId}/users/${uid}/approvedDesigns`] *)
Definition designsCollectionPath (uid : string) : string :=
  "/artifacts/" +:+ appId +:+ "/users/" +:+ uid +:+ "/approvedDesigns".

(** The success callback handed to [onSnapshot], lines 378-391. *)
Definition snapshot_next (docs : list Doc) (w : World) : World :=
  let fetchedDesigns := map to_design docs in
  let fetchedDesigns := sort_by by_newest fetchedDesigns in
  on_view (setError None) (on_view (setApprovedDesigns fetchedDesigns) w).

(** The error callback handed to [onSnapshot], lines 392-396. *)
Definition snapshot_error (w : World) : World :=
  on_view (setError (Some
    "Error fetching approved designs from storage. Check console for path/permissions.")) w.

(** The callback handed to [onAuthStateChanged], lines 351-400. *)
Definition auth_callback (user : option User) (w : World) : World :=
  let w := on_view (setIsDbLoading false) w in
  if negb (truthy_opt (uid <$> user)) then
    on_view (setUserId None) (on_view (setApprovedDesigns []) w)
  else
    let currentUserId := default EmptyString (uid <$> user) in
    let w := on_view (setUserId (Some currentUserId)) w in
    let '(snapshotUnsubscribe, w) :=
      onSnapshot (mkListener currentUserId (designsCollectionPath currentUserId)) w in
    set_ref (Some snapshotUnsubscribe) w.

(** The body of the effect, lines 342-400. *)
Definition effect_run (w : World) : World :=
  if negb (present (auth (view w))) || negb (present (db (view w))) then w
  else
    let w := match unsubscribeRef w with
             | Some h => set_ref None (unsubscribe h w)
             | None => w
             end in
    set_authSubscribed true w.

(** The cleanup function the effect returns, lines 403-408. *)
Definition effect_cleanup (w : World) : World :=
  let w := set_authSubscribed false w in
  match unsubscribeRef w with
  | Some h => unsubscribe h w
  | None => w
  end.

(** [handleApproveDesign], lines 413-450. [now] is [Date.now()] and
    [accepted] tells whether the store resolves or rejects [addDoc]. *)
Definition handleApproveDesign (now : Z) (accepted : bool) (w : World) : World :=
  let v := view w in
  if negb (present (db v)) || negb (present (auth v))
     || negb (truthy_opt (currentImage v)) then
    on_view (setError (Some
      "Cannot approve design: No generated image or storage not ready.")) w
  else
    let currentUid := uid <$> currentUser w in
    if negb (truthy_opt currentUid) then
      on_view (setError (Some "Cannot approve design: Authentication failed.")) w
    else
      let designsCollection := designsCollectionPath (default EmptyString currentUid) in
      let w := on_view (setLoading true) w in
      let newDesign :=
        mkData (inputText v) (selectedStyle v) (Some (mode_name (v_mode v)))
          (default EmptyString (currentImage v)) now in
      let w := log_store (AddDoc designsCollection newDesign accepted) w in
      let w :=
        if accepted then
          on_view (setCurrentImage None) (on_view (setError None) w)
        else
          on_view (setError (Some "Failed to save design to storage.")) w in
      on_view (setLoading false) w.

(** [handleDeleteDesign], lines 452-476. *)
Definition handleDeleteDesign (id : string) (accepted : bool) (w : World) : World :=
  let v := view w in
  if negb (present (db v)) || negb (present (auth v)) then w
  else
    let currentUid := uid <$> currentUser w in
    if negb (truthy_opt currentUid) then w
    else
      let designsCollection := designsCollectionPath (default EmptyString currentUid) in
      let w := on_view (setLoading true) w in
      let w := log_store (DeleteDoc designsCollection id accepted) w in
      let w :=
        if accepted then on_view (setError None) w
        else on_view (setError (Some "Failed to delete design from storage.")) w in
      on_view (setLoading false) w.

(** [handleGenerate], lines 547-594. [net] answers the requests of
    this call. *)
Definition handleGenerate (net : nat -> ImageRequest.FetchOutcome) (now : Z)
  (w : World) : World :=
  let v := view w in
  if negb (truthy (trim (inputText v))) && negb (truthy_opt (sketchImage v)) then
    on_view (setError (Some "Please enter a description or upload a sketch.")) w
  else
    let w := on_view (setLoading true) w in
    let w := on_view (setError None) w in
    let w := on_view (setCurrentImage None) w in
    let promptPrefix :=
      if truthy_opt (sketchImage v) then
        match v_mode v with
        | fashion => "Transform this rough sketch/photo into a high-end, photorealistic fashion photograph. The design is: "
        | architecture => "Transform this architectural sketch/photo into a photorealistic, real-world building render. The design details are: "
        end
      else
        match v_mode v with
        | fashion => "A professional, photorealistic fashion design visualization of "
        | architecture => "A professional, photorealistic architectural visualization of "
        end in
    let styleContext := ", " +:+ selectedStyle v +:+ " style" in
    let qualityBoosters := ", 8k resolution, highly detailed, realistic textures, cinematic lighting, masterpiece, award winning photography" in
    let subject :=
      if truthy (trim (inputText v)) then trim (inputText v)
      else "the structure shown in the sketch" in
    let fullPrompt :=
      promptPrefix +:+ " " +:+ subject +:+ styleContext +:+ qualityBoosters in
    let '(result, c) :=
      ImageRequest.generateImage net fullPrompt (sketchImage v) 0 ImageRequest.start in
    let w := log_network (ImageRequest.trace c) w in
    let w :=
      match result with
      | inr imageUrl =>
          let w := on_view (setCurrentImage (Some imageUrl)) w in
          on_view (setHistory (cons
            (mkHistory now imageUrl subject (v_mode v) (selectedStyle v)
               (truthy_opt (sketchImage v))))) w
      | inl _ =>
          on_view (setError (Some
            "Failed to generate visualization. Please try again. The AI model may be unavailable.")) w
      end in
    on_view (setLoading false) w.

(** What can happen to the mounted component. The SDK calls the
    auth-state callback only while it is registered, and delivers
    snapshots and listener errors only to listeners it still serves. *)
Inductive Event : Type :=
| EffectRun
| EffectCleanup
| AuthStateChanged (user : option User)
| SnapshotNext (h : nat) (docs : list Doc)
| SnapshotError (h : nat)
| ApproveClicked (now : Z) (accepted : bool)
| DeleteClicked (id : string) (accepted : bool)
| GenerateClicked (net : nat -> ImageRequest.FetchOutcome) (now : Z).

Definition step (w : World) (e : Event) : World :=
  match e with
  | EffectRun => if authSubscribed w then w else effect_run w
  | EffectCleanup => if authSubscribed w then effect_cleanup w else w
  | AuthStateChanged user =>
      let w := set_currentUser user w in
      if authSubscribed w then auth_callback user w else w
  | SnapshotNext h docs =>
      if present (listeners w !! h) then snapshot_next docs w else w
  | SnapshotError h =>
      if present (listeners w !! h) then snapshot_error w else w
  | ApproveClicked now accepted => handleApproveDesign now accepted w
  | DeleteClicked id accepted => handleDeleteDesign id accepted w
  | GenerateClicked net now => handleGenerate net now w
  end.

Definition run (w : World) (events : list Event) : World :=
  foldl step w events.

End Handlers.

(** The preconditions of an approve: a generated image, the store and
    auth handles, and a signed-in user with a uid. *)
Definition can_approve (w : World) : bool :=
  present (db (view w)) && present (auth (view w))
  && truthy_opt (currentImage (view w))
  && truthy_opt (uid <$> currentUser w).

(** Handles are handed out in increasing order: a served listener has
    a handle below the next one. *)
Definition handles_fresh (w : World) : Prop :=
  forall h, is_Some (listeners w !! h) -> (h < next_handle w)%nat.

(** Whether an auth-state callback carries a usable identity. *)
Definition valid_identity (user : option User) : bool :=
  truthy_opt (uid <$> user).

(** The component as first rendered, with [db] and [auth] already set by
    the initialisation effect (the listener effect does nothing before
    that). *)
Definition initial_view : View :=
  mkView fashion EmptyString "Haute Couture" false None [] None None
    (Some firestoreDb) (Some firebaseAuth) None [] true.

Definition initial : World :=
  mkWorld initial_view None ∅ 0 false None [] [].

End App.

(** ** Sample data *)

Module Samples.
Import App.

Definition image_answer : ImageRequest.ResponseJson :=
  {| ImageRequest.candidates := None;
     ImageRequest.predictions :=
       Some [ {| ImageRequest.bytesBase64Encoded := Some "QUJD" |} ] |}.

(** Two server errors, then an image. *)
Definition flaky_net (n : nat) : ImageRequest.FetchOutcome :=
  match n with
  | 0%nat | 1%nat => ImageRequest.Response false 500 None
  | _ => ImageRequest.Response true 200 (Some image_answer)
  end.

(** A service that is down. *)
Definition dead_net (n : nat) : ImageRequest.FetchOutcome :=
  ImageRequest.Response false 503 None.

Definition userA : User := mkUser "A".
Definition userB : User := mkUser "B".

Definition gown : Doc :=
  mkDoc "d1" (mkData "a silk gown" "Haute Couture" None "data:image/png;base64,AAAA"
                1700000000000).
Definition loft : Doc :=
  mkDoc "d2" (mkData "a loft" "Industrial" (Some "architecture")
                "data:image/png;base64,BBBB" 1700000000000).
Definition cabin : Doc :=
  mkDoc "d3" (mkData "a cabin" "Scandinavian" (Some "architecture")
                "data:image/png;base64,CCCC" 1700000005000).

(** Signed in as [userA], with a generated image on display. *)
Definition ready : World :=
  on_view (setCurrentImage (Some "data:image/png;base64,QUJD"))
    (run None (fun s => s) initial [EffectRun; AuthStateChanged (Some userA)]).

End Samples.

(** ** Reading a call of the request client by its answers *)

(** The first of the answers [from], [from + 1], ... ([n] of them) on
    which the [try] block does not throw, with its position. *)
Fixpoint first_success (isGemini : bool) (net : nat -> ImageRequest.FetchOutcome)
  (from n : nat) : option (nat * string) :=
  match n with
  | O => None
  | S n' =>
      match ImageRequest.decode isGemini (net from) with
      | inr uri => Some (from, uri)
      | inl _ => first_success isGemini net (S from) n'
      end
  end.

(** [Array.prototype.join] with a one-character separator. *)
Fixpoint join (sep : ascii) (pieces : list string) : string :=
  match pieces with
  | [] => EmptyString
  | [piece] => piece
  | piece :: rest => piece +:+ String sep (join sep rest)
  end.


(** ** The rest of the component *)

Module Surface.
Import App.

Definition setDb (d : option Firestore) (v : View) : View :=
  mkView (v_mode v) (inputText v) (selectedStyle v) (loading v) (currentImage v)
    (history v) (error v) (sketchImage v) d (auth v) (userId v)
    (approvedDesigns v) (isDbLoading v).

Definition setAuth (a : option Auth) (v : View) : View :=
  mkView (v_mode v) (inputText v) (selectedStyle v) (loading v) (currentImage v)
    (history v) (error v) (sketchImage v) (db v) a (userId v)
    (approvedDesigns v) (isDbLoading v).

Definition setMode (m : DesignMode) (v : View) : View :=
  mkView m (inputText v) (selectedStyle v) (loading v) (currentImage v)
    (history v) (error v) (sketchImage v) (db v) (auth v) (userId v)
    (approvedDesigns v) (isDbLoading v).

Definition setInputText (f : string -> string) (v : View) : View :=
  mkView (v_mode v) (f (inputText v)) (selectedStyle v) (loading v) (currentImage v)
    (history v) (error v) (sketchImage v) (db v) (auth v) (userId v)
    (approvedDesigns v) (isDbLoading v).

Definition setSelectedStyle (s : string) (v : View) : View :=
  mkView (v_mode v) (inputText v) s (loading v) (currentImage v)
    (history v) (error v) (sketchImage v) (db v) (auth v) (userId v)
    (approvedDesigns v) (isDbLoading v).

Definition setSketchImage (i : option string) (v : View) : View :=
  mkView (v_mode v) (inputText v) (selectedStyle v) (loading v) (currentImage v)
    (history v) (error v) i (db v) (auth v) (userId v)
    (approvedDesigns v) (isDbLoading v).

(** The [useState] initial values, lines 282-306, and the empty
    [unsubscribeRef]: the component before any effect has run. *)
Definition first_view : View :=
  mkView fashion EmptyString "Haute Couture" false None [] None None
    None None None [] true.

Definition first_render : World :=
  mkWorld first_view None ∅ 0 false None [] [].

(** *** Initialisation, lines 313-336 *)

Inductive SignIn : Type :=
| CustomToken (token : string)
| Anonymous.

(** [initializeFirebase]. [sdk] tells whether [JSON.parse],
    [initializeApp], [getFirestore] and [getAuth] all go through, and
    [accepts] whether the auth service accepts a sign-in. The result
    carries the sign-in that was attempted, if any. *)
Definition initializeFirebase (__initial_auth_token : option string)
  (sdk : bool) (accepts : SignIn -> bool) (w : World) : World * option SignIn :=
  if sdk then
    let w := on_view (setDb (Some firestoreDb)) w in
    let w := on_view (setAuth (Some firebaseAuth)) w in
    let signIn :=
      match __initial_auth_token with
      | Some token => CustomToken token
      | None => Anonymous
      end in
    if accepts signIn then (w, Some signIn)
    else (on_view (setError (Some "Failed to initialize storage.")) w, Some signIn)
  else
    (on_view (setError (Some "Failed to initialize storage.")) w, None).

(** *** Deleting, the preconditions of lines 453-457 *)

Definition can_delete (w : World) : bool :=
  present (db (view w)) && present (auth (view w))
  && truthy_opt (uid <$> currentUser w).

(** Every listener served is on the collection of a non-empty uid, under
    a handle already handed out. *)
Definition listeners_scoped (__app_id : option string) (w : World) : Prop :=
  forall h l, listeners w !! h = Some l ->
    (h < next_handle w)%nat /\
    truthy (scope l) = true /\
    path l = designsCollectionPath __app_id (scope l).

(** *** Modes and styles *)

(** [fashionStyles] and [architectureStyles] of [StyleSelector],
    lines 150-160. *)
Definition fashionStyles : list string :=
  ["Haute Couture"; "Streetwear"; "Avant-Garde"; "Bohemian"; "Minimalist";
   "Cyberpunk"; "Vintage"; "Dark Academia"; "Techwear"; "Cottagecore";
   "Regency Era"; "Gothic"; "Art Deco"; "Utility"].

Definition architectureStyles : list string :=
  ["Modernist"; "Industrial"; "Biophilic"; "Mid-Century"; "Scandinavian";
   "Futuristic"; "Brutalist"; "Baroque Revival"; "Deconstructivism";
   "Prairie Style"; "Desert Modernism"; "Tudor"; "Zen Garden"; "High-Tech"].

(** [const styles = mode === 'fashion' ? fashionStyles : architectureStyles] *)
Definition styles (m : DesignMode) : list string :=
  match m with
  | fashion => fashionStyles
  | architecture => architectureStyles
  end.

(** The effect of lines 479-482, run when [mode] has changed. *)
Definition mode_effect (v : View) : View :=
  setSelectedStyle
    (match v_mode v with
     | fashion => "Haute Couture"
     | architecture => "Modernist"
     end) v.

Definition same_mode (a b : DesignMode) : bool :=
  match a, b with
  | fashion, fashion | architecture, architecture => true
  | _, _ => false
  end.

(** What the user does with the header and the style buttons: a mode
    button calls [setMode], after which the mode effect runs if the mode
    has changed; the [i]-th style button of the list on display calls
    [setSelectedStyle] with its style. *)
Inductive Pick : Type :=
| PickMode (m : DesignMode)
| PickStyle (i : nat).

Definition pick (v : View) (p : Pick) : View :=
  match p with
  | PickMode m =>
      if same_mode m (v_mode v) then setMode m v else mode_effect (setMode m v)
  | PickStyle i =>
      match styles (v_mode v) !! i with
      | Some style => setSelectedStyle style v
      | None => v
      end
  end.

(** *** Voice input, lines 493-497 *)

(** The updater of [onresult],
    [prev => prev + (prev ? ' ' : '') + transcript]. *)
Definition append_transcript (transcript prev : string) : string :=
  prev +:+ (if truthy prev then " " else EmptyString) +:+ transcript.

Definition space : ascii := " "%char.

(** *** The caption of the loading placeholder, line 191 *)

(** [length] and [slice] count UTF-16 code units, so the prompt is taken
    here as JavaScript holds it, the list of its code units. *)
Definition utf16 : Type := list N.

(** ['...'], three full stops. *)
Definition dots : utf16 := [46%N; 46%N; 46%N].

(** [prompt.slice(0, 50)] followed by ['...'] when [prompt.length > 50]. *)
Definition caption (prompt : utf16) : utf16 :=
  take 50 prompt ++ (if (50 <? length prompt)%nat then dots else []).

(** *** Picking a sketch, lines 532-545 *)

(** [handleFileUpload]: [None] when no file was chosen, otherwise the
    [result] of the reader when it has finished, a data URL, or [null]
    when reading failed. *)
Definition handleFileUpload (file : option (option string)) (w : World) : World :=
  match file with
  | Some result => on_view (setError None) (on_view (setSketchImage result) w)
  | None => w
  end.

(** *** The prompt of a generation, lines 557-574 *)

Section Prompt.
Variable trim : string -> string.

Definition promptPrefix (v : View) : string :=
  if truthy_opt (sketchImage v) then
    match v_mode v with
    | fashion => "Transform this rough sketch/photo into a high-end, photorealistic fashion photograph. The design is: "
    | architecture => "Transform this architectural sketch/photo into a photorealistic, real-world building render. The design details are: "
    end
  else
    match v_mode v with
    | fashion => "A professional, photorealistic fashion design visualization of "
    | architecture => "A professional, photorealistic architectural visualization of "
    end.

Definition subject (v : View) : string :=
  if truthy (trim (inputText v)) then trim (inputText v)
  else "the structure shown in the sketch".

Definition fullPrompt (v : View) : string :=
  let styleContext := ", " +:+ selectedStyle v +:+ " style" in
  let qualityBoosters := ", 8k resolution, highly detailed, realistic textures, cinematic lighting, masterpiece, award winning photography" in
  promptPrefix v +:+ " " +:+ subject v +:+ styleContext +:+ qualityBoosters.

(** The test of line 548. *)
Definition has_input (v : View) : bool :=
  truthy (trim (inputText v)) || truthy_opt (sketchImage v).

End Prompt.

(** *** Everything the user and the browser can do to the view *)

(** [recognition.onerror], lines 499-505, as far as the view goes. *)
Definition speech_failed (err : string) (v : View) : View :=
  if negb (String.eqb err "no-speech") && negb (String.eqb err "aborted") then
    setError (Some "Voice input error. Please try typing instead.") v
  else v.

(** [toggleListening], lines 513-527, as far as the view goes;
    [supported] tells whether [recognitionRef.current] is set and
    [listening] is the [isListening] cell. *)
Definition toggleListening (supported listening : bool) (v : View) : View :=
  if negb supported then
    setError (Some "Speech recognition is not supported in this browser.") v
  else if listening then v
  else setError None v.

(** The click on one of the history thumbnails, lines 748-756: the four
    newest entries are on display; the four setters run, and the mode
    effect after them if the mode has changed. *)
Definition recall (i : nat) (v : View) : View :=
  match take 4 (history v) !! i with
  | Some item =>
      let v' :=
        setSelectedStyle (h_style item)
          (setMode (h_mode item)
             (setInputText (fun _ => h_prompt item)
                (setCurrentImage (Some (h_url item)) v))) in
      if same_mode (h_mode item) (v_mode v) then v' else mode_effect v'
  | None => v
  end.

Section Actions.
Variable __app_id : option string.
Variable trim : string -> string.

(** The events of [App.Event] and, beside them, the other handlers of
    the source that set a [useState] cell of the view: typing
    (line 654), removing the sketch (line 635), a picked file
    (lines 683, 700), the mode and style buttons (lines 123, 134, 170),
    the speech callbacks (lines 493-505) and the microphone button
    (line 663), the Clear button of the history panel (line 741) and
    its thumbnails (line 751). *)
Inductive Action : Type :=
| Core (e : App.Event)
| Typed (text : string)
| SketchRemoved
| FilePicked (file : option (option string))
| Picked (p : Pick)
| Heard (transcript : string)
| SpeechFailed (err : string)
| MicPressed (supported listening : bool)
| HistoryCleared
| Recalled (i : nat).

Definition act (w : World) (a : Action) : World :=
  match a with
  | Core e => App.step __app_id trim w e
  | Typed text => on_view (setInputText (fun _ => text)) w
  | SketchRemoved => on_view (setSketchImage None) w
  | FilePicked file => handleFileUpload file w
  | Picked p => on_view (fun v => pick v p) w
  | Heard transcript => on_view (setInputText (append_transcript transcript)) w
  | SpeechFailed err => on_view (speech_failed err) w
  | MicPressed supported listening => on_view (toggleListening supported listening) w
  | HistoryCleared => on_view (setHistory (fun _ => [])) w
  | Recalled i => on_view (recall i) w
  end.

Definition perform (w : World) (actions : list Action) : World :=
  foldl act w actions.

Definition is_clear (a : Action) : bool :=
  match a with
  | HistoryCleared => true
  | _ => false
  end.

End Actions.

End Surface.

(** ** More sample data *)

Module MoreSamples.
Import App Surface.

Definition keep (s : string) : string := s.

(** Signed in as [userA], with a description typed in. *)
Definition typed : World :=
  on_view (setInputText (fun _ => "a red dress"))
    (run None keep initial [EffectRun; AuthStateChanged (Some Samples.userA)]).

Definition sketch_url : string := "data:image/png;base64,QUJD".




End MoreSamples.

(** * Properties *)

(** ** The image request client *)

Section ImageRequestFacts.
Import ImageRequest.

Variable net : nat -> FetchOutcome.
Variables (prompt : string) (imageBase64 : option string).

Let req := request_of prompt imageBase64.
Let gem := isGemini_of imageBase64.

Lemma attempt_eq (c : Client) :
  attempt net prompt imageBase64 c =
    (decode gem (net (answered c)),
     mkClient (S (answered c)) (trace c ++ [Fetch req])).
Proof.
  unfold attempt, req, gem, request_of, isGemini_of, build_request.
  destruct (truthy_opt imageBase64); reflexivity.
Qed.

(** One turn of the function: the [try] block, then the [catch]. *)
Lemma generateImage_unfold (retries : nat) (c : Client) :
  generateImage net prompt imageBase64 retries c =
    let c1 := mkClient (S (answered c)) (trace c ++ [Fetch req]) in
    match decode gem (net (answered c)) with
    | inr uri => (inr uri, c1)
    | inl error =>
        if decide (retries < 5)%nat then
          generateImage net prompt imageBase64 (retries + 1)
            (mkClient (answered c1) (trace c1 ++ [Sleep (delay retries)]))
        else (inl error, c1)
    end.
Proof.
  simp generateImage. rewrite attempt_eq.
  destruct (decode gem (net (answered c))) as [e|uri]; simpl; [|reflexivity].
  destruct (lt_dec retries 5) as [Hlt|Hge]; simpl;
    destruct (decide (retries < 5)%nat); try lia; reflexivity.
Qed.

Lemma generateImage_after_failures (n : nat) :
  forall (retries : nat) (c : Client),
    (retries + n <= 5)%nat ->
    (forall k, (k < n)%nat -> failed gem (net (answered c + k)) = true) ->
    generateImage net prompt imageBase64 retries c =
      generateImage net prompt imageBase64 (retries + n)
        (mkClient (answered c + n) (trace c ++ failed_attempts req retries n)).
Proof.
  induction n as [|n IH]; intros retries c Hle Hfail.
  - rewrite !Nat.add_0_r, app_nil_r. destruct c; reflexivity.
  - rewrite generateImage_unfold. cbv zeta.
    pose proof (Hfail O ltac:(lia)) as H0. rewrite Nat.add_0_r in H0.
    unfold failed in H0.
    destruct (decode gem (net (answered c))) as [e|uri]; [|discriminate].
    destruct (decide (retries < 5)%nat); [|lia].
    rewrite IH; simpl.
    + rewrite <- !app_assoc. simpl.
      replace (retries + 1 + n)%nat with (retries + S n)%nat by lia.
      replace (S (answered c + n)) with (answered c + S n)%nat by lia.
      replace (retries + 1)%nat with (S retries) by lia.
      reflexivity.
    + lia.
    + intros k Hk. replace (S (answered c + k)) with (answered c + S k)%nat by lia.
      apply Hfail. lia.
Qed.

Lemma sleeps_failed_attempts (r n : nat) :
  sleeps (failed_attempts req r n ++ [Fetch req]) = map delay (seq r n).
Proof.
  revert r. induction n as [|n IH]; intros r; simpl; [reflexivity|].
  f_equal. apply IH.
Qed.

Lemma fetches_failed_attempts (r n : nat) :
  fetches (failed_attempts req r n ++ [Fetch req]) = replicate (S n) req.
Proof.
  revert r. induction n as [|n IH]; intros r; simpl; [reflexivity|].
  f_equal. apply IH.
Qed.

Lemma delays_prefix (n : nat) :
  (n <= 5)%nat -> map delay (seq 0 n) = take n delays.
Proof.
  intros Hn. do 6 (destruct n as [|n]; [reflexivity|]). lia.
Qed.

(** C1. If the first [n <= 5] attempts fail and the next one succeeds,
    the call returns that success, sends [n + 1] requests, that is
    retries exactly [n] times, and waits the first [n] delays of the
    fixed schedule 1s, 2s, 4s, 8s, 16s, one before each retry. *)
Theorem generateImage_succeeds_after_retries (n : nat) (uri : string) :
  (n <= 5)%nat ->
  (forall k, (k < n)%nat -> failed gem (net k) = true) ->
  decode gem (net n) = inr uri ->
  let '(result, c) := generateImage net prompt imageBase64 0 start in
  result = inr uri /\
  trace c = failed_attempts req 0 n ++ [Fetch req] /\
  fetches (trace c) = replicate (S n) req /\
  sleeps (trace c) = take n [1000; 2000; 4000; 8000; 16000].
Proof.
  intros Hn Hfail Hok.
  rewrite (generateImage_after_failures n 0 start) by (simpl; auto with lia).
  rewrite generateImage_unfold. simpl. rewrite Hok. cbn [trace].
  split; [reflexivity|]. split; [reflexivity|]. split.
  - apply (fetches_failed_attempts 0 n).
  - rewrite sleeps_failed_attempts. apply (delays_prefix n Hn).
Qed.

(** C2. If six attempts in a row fail, the call ends with the error of
    the sixth attempt, having sent exactly six requests and waited the
    five delays: there is no seventh request. *)
Theorem generateImage_gives_up_after_six :
  (forall k, (k < 6)%nat -> failed gem (net k) = true) ->
  exists error c,
    generateImage net prompt imageBase64 0 start = (inl error, c) /\
    decode gem (net 5) = inl error /\
    answered c = 6%nat /\
    fetches (trace c) = replicate 6 req /\
    sleeps (trace c) = [1000; 2000; 4000; 8000; 16000] /\
    last (trace c) = Some (Fetch req).
Proof.
  intros Hfail.
  rewrite (generateImage_after_failures 5 0 start)
    by (simpl; auto with lia).
  rewrite generateImage_unfold. simpl.
  pose proof (Hfail 5%nat ltac:(lia)) as H5. unfold failed in H5.
  destruct (decode gem (net 5)) as [e|uri]; [|discriminate].
  exists e. eexists. split; [reflexivity|].
  cbn. repeat split.
Qed.

(** Whatever the network answers, a call is some failed attempts, at
    most five of them, and one last request, all carrying the same
    request. *)
Lemma generateImage_trace_shape (m : nat) :
  forall (retries : nat) (c : Client),
    (5 - retries)%nat = m ->
    exists n, (n <= m)%nat /\
      trace (snd (generateImage net prompt imageBase64 retries c)) =
        trace c ++ failed_attempts req retries n ++ [Fetch req].
Proof.
  induction m as [|m IH]; intros retries c Hm;
    rewrite generateImage_unfold; cbv zeta;
    destruct (decode gem (net (answered c))) as [e|uri];
    try (exists 0%nat; split; [lia|reflexivity]).
  - destruct (decide (retries < 5)%nat); [lia|].
    exists 0%nat; split; [lia|reflexivity].
  - destruct (decide (retries < 5)%nat); [|lia].
    edestruct (IH (retries + 1)%nat) as (n & Hn & ->); [lia|].
    exists (S n). split; [lia|]. cbn [trace failed_attempts].
    replace (retries + 1)%nat with (S retries) by lia.
    rewrite <- !app_assoc. reflexivity.
Qed.

Lemma generateImage_requests :
  Forall (fun r => r = req)
    (fetches (trace (snd (generateImage net prompt imageBase64 0 start)))).
Proof.
  destruct (generateImage_trace_shape 5 0 start eq_refl) as (n & _ & ->).
  cbn [trace start app]. rewrite fetches_failed_attempts.
  apply Forall_replicate. reflexivity.
Qed.

End ImageRequestFacts.

Section Endpoint.
Import ImageRequest.

Lemma split_no_comma (s : string) :
  has_comma s = false -> split comma s = [s].
Proof.
  induction s as [|ch s IH]; simpl; [reflexivity|].
  destruct (Ascii.eqb ch comma); simpl; [discriminate|].
  intros H. rewrite (IH H). reflexivity.
Qed.

Lemma split_data_url (header payload : string) :
  has_comma header = false ->
  split comma (data_url header payload) = header :: split comma payload.
Proof.
  unfold data_url.
  induction header as [|ch h IH]; simpl; [reflexivity|].
  destruct (Ascii.eqb ch comma); simpl; [discriminate|].
  intros H. rewrite (IH H). reflexivity.
Qed.

Lemma data_url_truthy (header payload : string) :
  truthy (data_url header payload) = true.
Proof. destruct header; reflexivity. Qed.

(** The guard [if (imageBase64)] is a truthiness test: an empty string
    takes the text-to-image branch like [null]. *)
Lemma empty_image_is_no_image (prompt : string) :
  request_of prompt (Some EmptyString) = request_of prompt None.
Proof. reflexivity. Qed.

(** [split(',')[1]] of a string without a comma is [undefined]: the
    request then carries no image data. *)
Lemma image_without_comma (prompt s : string) :
  truthy s = true -> has_comma s = false ->
  body (request_of prompt (Some s)) = GeminiBody prompt "image/png" None ["IMAGE"].
Proof.
  intros Ht Hc. unfold request_of, build_request. simpl. rewrite Ht. simpl.
  rewrite (split_no_comma s Hc). reflexivity.
Qed.

Lemma generateImage_sent
  (net : nat -> FetchOutcome) (prompt : string) (imageBase64 : option string) :
  exists n, (n <= 5)%nat /\
    fetches (trace (snd (generateImage net prompt imageBase64 0 start))) =
      replicate (S n) (request_of prompt imageBase64).
Proof.
  destruct (generateImage_trace_shape net prompt imageBase64 5 0 start eq_refl)
    as (n & Hn & ->).
  exists n. split; [exact Hn|].
  cbn [trace start app]. apply fetches_failed_attempts.
Qed.

(** C3. A call sends at least one request, and every request it sends
    is the one chosen from the reference image. Without a reference
    image ([null]) the requests go to the text-to-image endpoint and
    their body holds the instruction text only (with the sample count).
    With a reference image they go to the image-to-image endpoint and
    their body holds the instruction text; the image being a data URL
    whose payload is the base64 text of its bytes, the body holds that
    payload too. *)
Theorem generateImage_endpoint_selection
  (net : nat -> FetchOutcome) (prompt : string) (imageBase64 : option string) :
  let sent := fetches (trace (snd (generateImage net prompt imageBase64 0 start))) in
  (exists n, (n <= 5)%nat /\
     sent = replicate (S n) (request_of prompt imageBase64)) /\
  (imageBase64 = None ->
     exists n, (n <= 5)%nat /\
       sent = replicate (S n)
         (mkRequest imagen_url "POST" "application/json" (ImagenBody prompt 1))) /\
  (forall image,
     imageBase64 = Some image -> truthy image = true ->
     exists n data, (n <= 5)%nat /\
       sent = replicate (S n)
         (mkRequest gemini_url "POST" "application/json"
            (GeminiBody prompt "image/png" data ["IMAGE"]))) /\
  (forall header payload,
     imageBase64 = Some (data_url header payload) ->
     has_comma header = false -> has_comma payload = false ->
     exists n, (n <= 5)%nat /\
       sent = replicate (S n)
         (mkRequest gemini_url "POST" "application/json"
            (GeminiBody prompt "image/png" (Some payload) ["IMAGE"]))).
Proof.
  cbv zeta.
  destruct (generateImage_sent net prompt imageBase64) as (n & Hn & ->).
  split; [exists n; split; [exact Hn|reflexivity]|]. split; [|split].
  - intros ->. exists n. split; [exact Hn|reflexivity].
  - intros image -> Ht. eexists n, _. split; [exact Hn|].
    unfold request_of, build_request. simpl. rewrite Ht. reflexivity.
  - intros header payload -> Hh Hp. exists n. split; [exact Hn|].
    unfold request_of, build_request. simpl.
    rewrite data_url_truthy. simpl.
    rewrite (split_data_url _ _ Hh), (split_no_comma _ Hp). reflexivity.
Qed.

End Endpoint.

(** ** Sorting with a comparator *)

Section SortFacts.
Import App.
Context {A : Type} (cmp : A -> A -> Z).

Lemma insert_by_perm (x : A) (l : list A) : insert_by cmp x l ≡ₚ x :: l.
Proof.
  induction l as [|y l IH]; simpl; [reflexivity|].
  destruct (Z.leb (cmp x y) 0); [reflexivity|].
  rewrite IH. apply Permutation_swap.
Qed.

Lemma sort_by_perm (l : list A) : sort_by cmp l ≡ₚ l.
Proof.
  induction l as [|x l IH]; simpl; [reflexivity|].
  rewrite insert_by_perm. f_equiv. exact IH.
Qed.

(** A comparator that never puts two elements each strictly after the
    other. *)
Hypothesis cmp_total : forall x y, 0 < cmp x y -> cmp y x <= 0.

Let before (a b : A) : Prop := cmp a b <= 0.

Lemma insert_by_sorted (x : A) (l : list A) :
  Sorted before l -> Sorted before (insert_by cmp x l).
Proof.
  induction l as [|y l IH]; intros Hs; simpl.
  - repeat constructor.
  - destruct (Z.leb_spec (cmp x y) 0) as [Hle|Hgt].
    + constructor; [exact Hs|]. constructor. exact Hle.
    + inversion Hs as [|? ? Hl Hhd]; subst.
      constructor; [apply IH; exact Hl|].
      destruct l as [|z l]; simpl.
      * constructor. apply cmp_total. exact Hgt.
      * destruct (Z.leb (cmp x z) 0).
        -- constructor. apply cmp_total. exact Hgt.
        -- inversion Hhd; subst. constructor. assumption.
Qed.

Lemma sort_by_sorted (l : list A) : Sorted before (sort_by cmp l).
Proof.
  induction l as [|x l IH]; simpl; [constructor|].
  apply insert_by_sorted. exact IH.
Qed.

End SortFacts.

Lemma Sorted_adjacent {A : Type} (R : A -> A -> Prop) (l : list A) :
  Sorted R l ->
  forall (i : nat) (a b : A), l !! i = Some a -> l !! S i = Some b -> R a b.
Proof.
  induction 1 as [|x l Hs IH Hhd]; intros i a b Ha Hb; [discriminate|].
  destruct i as [|i]; simpl in *.
  - injection Ha as <-. destruct Hhd as [|y l Hxy]; [discriminate|].
    simpl in Hb. injection Hb as <-. exact Hxy.
  - eapply IH; eassumption.
Qed.

(** Elements that the comparator ties keep the order they arrived in. *)
Lemma sort_by_newest_stable (t : Z) (l : list App.ApprovedDesign) :
  filter (fun d => App.createdAt d = t) (App.sort_by App.by_newest l) =
  filter (fun d => App.createdAt d = t) l.
Proof.
  induction l as [|x l IH]; simpl; [reflexivity|].
  rewrite filter_cons, <- IH. clear IH.
  generalize (App.sort_by App.by_newest l) as s. intros s.
  induction s as [|y s IHs]; simpl; [rewrite filter_cons; reflexivity|].
  destruct (Z.leb_spec (App.by_newest x y) 0) as [Hle|Hgt].
  - rewrite filter_cons. reflexivity.
  - rewrite filter_cons, IHs, (filter_cons _ y s).
    unfold App.by_newest in Hgt.
    repeat case_decide; try reflexivity; lia.
Qed.

(** ** The snapshot callback *)

Section SnapshotFacts.
Import App.

Lemma snapshot_next_designs (docs : list Doc) (w : World) :
  approvedDesigns (view (snapshot_next docs w)) =
    sort_by by_newest (map to_design docs).
Proof. reflexivity. Qed.

Lemma by_newest_total (x y : ApprovedDesign) :
  0 < by_newest x y -> by_newest y x <= 0.
Proof. unfold by_newest. lia. Qed.

(** C5, as amended. After every snapshot update the local list is
    sorted by [createdAt] in descending order, newest first: for every
    pair of adjacent elements the [createdAt] of the earlier one is
    greater than or equal to that of the later one. *)
Theorem snapshot_sorted_newest_first (docs : list Doc) (w : World) :
  let designs := approvedDesigns (view (snapshot_next docs w)) in
  Sorted (fun a b => createdAt b <= createdAt a) designs /\
  forall (i : nat) (a b : ApprovedDesign),
    designs !! i = Some a -> designs !! S i = Some b ->
    createdAt b <= createdAt a.
Proof.
  cbv zeta. rewrite snapshot_next_designs.
  assert (Hs : Sorted (fun a b => createdAt b <= createdAt a)
                 (sort_by by_newest (map to_design docs))).
  { eapply Sorted_ind with (P := fun l => Sorted _ l);
      [constructor| |apply (sort_by_sorted by_newest by_newest_total)].
    intros a l _ IH Hhd. constructor; [exact IH|].
    destruct Hhd as [|b l Hab]; constructor.
    unfold by_newest in Hab. lia. }
  split; [exact Hs|].
  intros i a b Ha Hb. exact (Sorted_adjacent _ _ Hs i a b Ha Hb).
Qed.

(** C6. Every snapshot rebuilds the whole list from its documents,
    whatever the list held before: the list is a rearrangement of the
    records made from the documents, a document without [mode] gives a
    record of mode ['fashion'], and a document with a [mode] gives a
    record with that same value. *)
Theorem snapshot_defaults_missing_mode (docs : list Doc) (w : World) :
  approvedDesigns (view (snapshot_next docs w)) ≡ₚ map to_design docs /\
  forall doc : Doc,
    doc ∈ docs ->
    to_design doc ∈ approvedDesigns (view (snapshot_next docs w)) /\
    id (to_design doc) = doc_id doc /\
    (d_mode (doc_data doc) = None -> mode (to_design doc) = "fashion") /\
    (forall m, d_mode (doc_data doc) = Some m -> mode (to_design doc) = m).
Proof.
  rewrite snapshot_next_designs. split; [apply sort_by_perm|].
  intros doc Hin. split; [|split; [reflexivity|split]].
  - rewrite sort_by_perm. apply list_elem_of_fmap. exists doc. auto.
  - unfold to_design. intros ->. reflexivity.
  - unfold to_design. intros m ->. reflexivity.
Qed.

(** C10. A delivered snapshot leaves the error state empty, whatever it
    held: in particular after an approve or a delete that the store
    rejected, and after a generation that failed. *)
Theorem snapshot_clears_error
  (__app_id : option string) (trim : string -> string)
  (docs : list Doc) (w : World) :
  error (view (snapshot_next docs w)) = None /\
  (forall now,
     error (view (snapshot_next docs
       (handleApproveDesign __app_id now false w))) = None) /\
  (forall id,
     error (view (snapshot_next docs
       (handleDeleteDesign __app_id id false w))) = None) /\
  (forall net now,
     error (view (snapshot_next docs (handleGenerate trim net now w))) = None) /\
  (forall h,
     present (listeners w !! h) = true ->
     error (view (step __app_id trim w (SnapshotNext h docs))) = None).
Proof.
  repeat split; try reflexivity.
  intros h Hh. simpl. rewrite Hh. reflexivity.
Qed.

End SnapshotFacts.

(** ** Approving a design *)

Section ApproveFacts.
Import App.

Variable __app_id : option string.

(** C8. An approve without a generated image, or without the store
    handle, the auth handle or a signed-in identity, sets one of the
    two validation messages as the error state, changes nothing else,
    and issues no store write. *)
Theorem approve_without_image_writes_nothing
  (now : Z) (accepted : bool) (w : World) :
  can_approve w = false ->
  let w' := handleApproveDesign __app_id now accepted w in
  (error (view w') =
     Some "Cannot approve design: No generated image or storage not ready."
   \/ error (view w') = Some "Cannot approve design: Authentication failed.") /\
  w' = on_view (setError (error (view w'))) w /\
  store_log w' = store_log w /\
  (truthy_opt (currentImage (view w)) = false ->
     error (view w') =
       Some "Cannot approve design: No generated image or storage not ready.").
Proof.
  unfold can_approve, handleApproveDesign. intros Hpre. cbv zeta.
  destruct (present (db (view w))), (present (auth (view w))),
    (truthy_opt (currentImage (view w))); simpl in *;
    try (repeat split; auto; fail).
  rewrite Hpre. simpl. repeat split; auto. discriminate.
Qed.

(** C9. An approve that passes its preconditions issues one write, the
    new record under the collection of the signed-in identity. If the
    store accepts it, the displayed image is cleared (and so is the
    error state); if the store rejects it, the error state is set to
    the save-failure message and the displayed image is left as it
    was. *)
Theorem approve_write_outcomes (now : Z) (accepted : bool) (w : World) :
  can_approve w = true ->
  let w' := handleApproveDesign __app_id now accepted w in
  (exists uid0 image,
     (uid <$> currentUser w) = Some uid0 /\
     currentImage (view w) = Some image /\
     store_log w' = store_log w ++
       [AddDoc (designsCollectionPath __app_id uid0)
          (mkData (inputText (view w)) (selectedStyle (view w))
             (Some (mode_name (v_mode (view w)))) image now) accepted]) /\
  (accepted = true ->
     currentImage (view w') = None /\ error (view w') = None) /\
  (accepted = false ->
     error (view w') = Some "Failed to save design to storage." /\
     currentImage (view w') = currentImage (view w)).
Proof.
  unfold can_approve, handleApproveDesign. intros Hpre. cbv zeta.
  destruct (present (db (view w))); [|discriminate].
  destruct (present (auth (view w))); [|discriminate].
  destruct (currentImage (view w)) as [image|] eqn:Himg; [|discriminate].
  simpl in Hpre. destruct (truthy image) eqn:Ht; [|discriminate].
  simpl in Hpre. simpl. rewrite Ht, Hpre. simpl.
  destruct (uid <$> currentUser w) as [uid0|] eqn:Hu; [|discriminate].
  split; [exists uid0, image; destruct accepted; auto|].
  split; intros ->; simpl; auto.
Qed.

End ApproveFacts.

(** ** The auth-state callback and the snapshot listeners *)

Section ListenerFacts.
Import App.

Variable __app_id : option string.
Variable trim : string -> string.

Local Abbreviation designsCollectionPath := (App.designsCollectionPath __app_id).
Local Abbreviation auth_callback := (App.auth_callback __app_id).
Local Abbreviation step := (App.step __app_id trim).
Local Abbreviation run := (App.run __app_id trim).

(** Without a usable identity the callback empties the list, clears the
    user id and leaves the listeners and the stored handle alone. *)
Lemma auth_callback_without_identity (user : option User) (w : World) :
  valid_identity user = false ->
  approvedDesigns (view (auth_callback user w)) = [] /\
  userId (view (auth_callback user w)) = None /\
  listeners (auth_callback user w) = listeners w /\
  unsubscribeRef (auth_callback user w) = unsubscribeRef w.
Proof.
  unfold valid_identity, App.auth_callback. intros ->.
  repeat split.
Qed.

(** With one it opens a listener on that identity's collection and
    stores its handle, without calling the handle stored before. *)
Lemma auth_callback_with_identity (u : User) (w : World) :
  truthy (uid u) = true ->
  listeners (auth_callback (Some u) w) =
    <[next_handle w := mkListener (uid u) (designsCollectionPath (uid u))]>
      (listeners w) /\
  next_handle (auth_callback (Some u) w) = S (next_handle w) /\
  unsubscribeRef (auth_callback (Some u) w) = Some (next_handle w) /\
  userId (view (auth_callback (Some u) w)) = Some (uid u).
Proof.
  unfold App.auth_callback. simpl. intros ->.
  repeat split.
Qed.

(** The callback never releases a listener. *)
Lemma auth_callback_releases_nothing (user : option User) (w : World) :
  handles_fresh w ->
  forall h l, listeners w !! h = Some l ->
              listeners (auth_callback user w) !! h = Some l.
Proof.
  intros Hfresh h l Hl.
  destruct (valid_identity user) eqn:Hv.
  - destruct user as [u|]; [|discriminate].
    destruct (auth_callback_with_identity u w Hv) as (-> & _).
    rewrite lookup_insert_ne; [exact Hl|].
    specialize (Hfresh h ltac:(eauto)). lia.
  - destruct (auth_callback_without_identity user w Hv) as (_ & _ & -> & _).
    exact Hl.
Qed.

Lemma handles_fresh_delete (h : nat) (w : World) :
  handles_fresh w -> handles_fresh (unsubscribe h w).
Proof.
  intros Hf k [l Hk]. simpl in Hk.
  apply lookup_delete_Some in Hk as [_ Hk]. apply Hf. eauto.
Qed.

Lemma step_handles_fresh (w : World) (e : Event) :
  handles_fresh w -> handles_fresh (step w e).
Proof.
  intros Hf. destruct e as [| |user|h docs|h|now acc|i acc|net now];
    unfold App.step.
  - destruct (authSubscribed w); [exact Hf|].
    unfold effect_run.
    destruct (negb (present (auth (view w))) || negb (present (db (view w))));
      [exact Hf|].
    destruct (unsubscribeRef w) as [h|]; [|exact Hf].
    exact (handles_fresh_delete h w Hf).
  - destruct (authSubscribed w); [|exact Hf].
    unfold effect_cleanup. simpl.
    destruct (unsubscribeRef w) as [h|]; [|exact Hf].
    exact (handles_fresh_delete h _ Hf).
  - simpl. destruct (authSubscribed w); [|exact Hf].
    intros h [l Hl].
    destruct (valid_identity user) eqn:Hv.
    + destruct user as [u|]; [|discriminate].
      destruct (auth_callback_with_identity u (set_currentUser (Some u) w) Hv)
        as (Hls & Hn & _).
      rewrite Hn. rewrite Hls in Hl. simpl in *.
      apply lookup_insert_Some in Hl as [[<- _]|[_ Hl]]; [lia|].
      specialize (Hf h ltac:(eauto)). lia.
    + destruct (auth_callback_without_identity user (set_currentUser user w) Hv)
        as (_ & _ & Hls & _).
      rewrite Hls in Hl.
      unfold App.auth_callback.
      unfold valid_identity in Hv. rewrite Hv. simpl. apply Hf. eauto.
  - destruct (present (listeners w !! h)); exact Hf.
  - destruct (present (listeners w !! h)); exact Hf.
  - unfold handleApproveDesign.
    repeat (match goal with |- context [if ?b then _ else _] => destruct b end);
      exact Hf.
  - unfold handleDeleteDesign.
    repeat (match goal with |- context [if ?b then _ else _] => destruct b end);
      exact Hf.
  - unfold handleGenerate.
    destruct (negb (truthy (trim (inputText (view w))))
              && negb (truthy_opt (sketchImage (view w)))); [exact Hf|].
    cbv zeta.
    destruct (ImageRequest.generateImage net _ _ 0 ImageRequest.start)
      as [[e|imageUrl] c]; exact Hf.
Qed.

Lemma run_handles_fresh (events : list (Event)) :
  forall w, handles_fresh w -> handles_fresh (run w events).
Proof.
  induction events as [|e events IH]; intros w Hf; [exact Hf|].
  apply IH, step_handles_fresh, Hf.
Qed.

Lemma initial_handles_fresh : handles_fresh initial.
Proof. intros h [l Hl]. simpl in Hl. rewrite lookup_empty in Hl. discriminate. Qed.

(** A listener is opened only by an auth-state callback that carries a
    usable identity, and it is opened on that identity. *)
Lemma listener_opened_by_identity (w : World) (e : Event)
  (h : nat) (l : Listener) :
  listeners w !! h = None ->
  listeners (step w e) !! h = Some l ->
  exists u, e = AuthStateChanged (Some u) /\
            truthy (uid u) = true /\
            l = mkListener (uid u) (designsCollectionPath (uid u)).
Proof.
  intros Hnone Hsome.
  destruct e as [| |user|k docs|k|now acc|i acc|net now];
    unfold App.step in Hsome.
  - destruct (authSubscribed w); [congruence|].
    unfold effect_run in Hsome.
    destruct (negb (present (auth (view w))) || negb (present (db (view w))));
      [congruence|].
    destruct (unsubscribeRef w) as [k|]; simpl in Hsome; [|congruence].
    apply lookup_delete_Some in Hsome as [_ Hsome]. congruence.
  - destruct (authSubscribed w); [|congruence].
    unfold effect_cleanup in Hsome. simpl in Hsome.
    destruct (unsubscribeRef w) as [k|]; simpl in Hsome; [|congruence].
    apply lookup_delete_Some in Hsome as [_ Hsome]. congruence.
  - simpl in Hsome. destruct (authSubscribed w); [|simpl in Hsome; congruence].
    destruct (valid_identity user) eqn:Hv.
    + destruct user as [u|]; [|discriminate].
      destruct (auth_callback_with_identity u (set_currentUser (Some u) w) Hv)
        as (Hls & _).
      rewrite Hls in Hsome. simpl in Hsome.
      apply lookup_insert_Some in Hsome as [[_ <-]|[_ Hsome]]; [|congruence].
      exists u. auto.
    + destruct (auth_callback_without_identity user (set_currentUser user w) Hv)
        as (_ & _ & Hls & _).
      rewrite Hls in Hsome. simpl in Hsome.
      congruence.
  - destruct (present (listeners w !! k)); simpl in Hsome; congruence.
  - destruct (present (listeners w !! k)); simpl in Hsome; congruence.
  - unfold handleApproveDesign in Hsome.
    repeat (match type of Hsome with
            | context [if ?b then _ else _] => destruct b
            end); simpl in Hsome; congruence.
  - unfold handleDeleteDesign in Hsome.
    repeat (match type of Hsome with
            | context [if ?b then _ else _] => destruct b
            end); simpl in Hsome; congruence.
  - unfold handleGenerate in Hsome.
    destruct (negb (truthy (trim (inputText (view w))))
              && negb (truthy_opt (sketchImage (view w)))); [simpl in Hsome; congruence|].
    cbv zeta in Hsome.
    destruct (ImageRequest.generateImage net _ _ 0 ImageRequest.start)
      as [[e|imageUrl] c]; simpl in Hsome; congruence.
Qed.

End ListenerFacts.

Section IdentityChange.
Import App Samples.

Variable __app_id : option string.

(** Two identities in a row: the second listener is opened while the
    first is still served, and the stored handle is overwritten. *)
Lemma identity_change_keeps_both (a b : User) (w : World) :
  truthy (uid a) = true -> truthy (uid b) = true ->
  let w2 := auth_callback __app_id (Some b) (auth_callback __app_id (Some a) w) in
  listeners w2 !! next_handle w =
    Some (mkListener (uid a) (designsCollectionPath __app_id (uid a))) /\
  listeners w2 !! S (next_handle w) =
    Some (mkListener (uid b) (designsCollectionPath __app_id (uid b))) /\
  unsubscribeRef w2 = Some (S (next_handle w)).
Proof.
  intros Ha Hb. cbv zeta.
  destruct (auth_callback_with_identity __app_id a w Ha) as (Hl1 & Hn1 & _).
  destruct (auth_callback_with_identity __app_id b
              (auth_callback __app_id (Some a) w) Hb) as (Hl2 & _ & Hr2 & _).
  rewrite Hl2, Hr2, Hn1, Hl1. repeat split.
  - rewrite lookup_insert_ne by lia. apply lookup_insert_eq.
  - apply lookup_insert_eq.
Qed.

End IdentityChange.

(** C4. The code at an identity change. With the effect mounted, the
    auth-state listener is told of user A and then of user B. The
    callback opens the listener for B without calling the handle it
    stored for A: afterwards the store serves both listeners, and only
    B's handle is still held. *)
Theorem identity_change_leaves_old_listener :
  let w := App.run None (fun s => s) App.initial
             [App.EffectRun;
              App.AuthStateChanged (Some Samples.userA);
              App.AuthStateChanged (Some Samples.userB)] in
  App.listeners w !! 0%nat =
    Some (App.mkListener "A" "/artifacts/default-app-id/users/A/approvedDesigns") /\
  App.listeners w !! 1%nat =
    Some (App.mkListener "B" "/artifacts/default-app-id/users/B/approvedDesigns") /\
  App.unsubscribeRef w = Some 1%nat /\
  App.userId (App.view w) = Some "B".
Proof. vm_compute. repeat split. Qed.

(** C7. The code at a sign-out. With the effect mounted, the auth-state
    listener is told of user A and then of no user. The callback empties
    the list and clears the user id, and opens no listener, but it does
    not call the handle stored for A: the store still serves A's
    listener while no identity is present, and a snapshot it delivers
    fills the list again. *)
Theorem sign_out_leaves_listener :
  let w := App.run None (fun s => s) App.initial
             [App.EffectRun;
              App.AuthStateChanged (Some Samples.userA);
              App.AuthStateChanged None] in
  App.userId (App.view w) = None /\
  App.currentUser w = None /\
  App.approvedDesigns (App.view w) = [] /\
  App.listeners w !! 0%nat =
    Some (App.mkListener "A" "/artifacts/default-app-id/users/A/approvedDesigns") /\
  App.approvedDesigns
    (App.view (App.step None (fun s => s) w (App.SnapshotNext 0 [Samples.gown]))) =
    [App.to_design Samples.gown].
Proof. vm_compute. repeat split. Qed.

(** ** Instances *)

Lemma generateImage_succeeds_after_retries_witness :
  let '(result, c) :=
    ImageRequest.generateImage Samples.flaky_net "a red dress" None 0
      ImageRequest.start in
  result = inr "data:image/png;base64,QUJD" /\
  ImageRequest.trace c =
    ImageRequest.failed_attempts (ImageRequest.request_of "a red dress" None) 0 2
      ++ [ImageRequest.Fetch (ImageRequest.request_of "a red dress" None)] /\
  ImageRequest.fetches (ImageRequest.trace c) =
    replicate 3 (ImageRequest.request_of "a red dress" None) /\
  ImageRequest.sleeps (ImageRequest.trace c) = [1000; 2000].
Proof.
  apply (generateImage_succeeds_after_retries Samples.flaky_net "a red dress" None
           2 "data:image/png;base64,QUJD").
  - lia.
  - intros [|[|k]] Hk; [reflexivity|reflexivity|lia].
  - reflexivity.
Defined.

Lemma generateImage_gives_up_after_six_witness :
  exists error c,
    ImageRequest.generateImage Samples.dead_net "a red dress" None 0
      ImageRequest.start = (inl error, c) /\
    ImageRequest.decode (ImageRequest.isGemini_of None) (Samples.dead_net 5) =
      inl error /\
    ImageRequest.answered c = 6%nat /\
    ImageRequest.fetches (ImageRequest.trace c) =
      replicate 6 (ImageRequest.request_of "a red dress" None) /\
    ImageRequest.sleeps (ImageRequest.trace c) = [1000; 2000; 4000; 8000; 16000] /\
    last (ImageRequest.trace c) =
      Some (ImageRequest.Fetch (ImageRequest.request_of "a red dress" None)).
Proof.
  apply (generateImage_gives_up_after_six Samples.dead_net "a red dress" None).
  intros k _. reflexivity.
Defined.

Lemma generateImage_endpoint_selection_witness :
  (exists n, (n <= 5)%nat /\
     ImageRequest.fetches (ImageRequest.trace (snd
       (ImageRequest.generateImage Samples.dead_net "a red dress"
          (Some "data:image/png;base64,QUJD") 0 ImageRequest.start))) =
     replicate (S n)
       (ImageRequest.mkRequest ImageRequest.gemini_url "POST" "application/json"
          (ImageRequest.GeminiBody "a red dress" "image/png" (Some "QUJD")
             ["IMAGE"]))) /\
  (exists n, (n <= 5)%nat /\
     ImageRequest.fetches (ImageRequest.trace (snd
       (ImageRequest.generateImage Samples.flaky_net "a red dress" None 0
          ImageRequest.start))) =
     replicate (S n)
       (ImageRequest.mkRequest ImageRequest.imagen_url "POST" "application/json"
          (ImageRequest.ImagenBody "a red dress" 1))).
Proof.
  split.
  - apply (proj2 (proj2 (proj2 (generateImage_endpoint_selection Samples.dead_net
             "a red dress" (Some "data:image/png;base64,QUJD"))))
             "data:image/png;base64" "QUJD"); reflexivity.
  - apply (proj1 (proj2 (generateImage_endpoint_selection Samples.flaky_net
             "a red dress" None))). reflexivity.
Defined.

Lemma snapshot_sorted_newest_first_witness :
  App.createdAt (App.to_design Samples.gown)
  <= App.createdAt (App.to_design Samples.cabin).
Proof.
  apply (proj2 (snapshot_sorted_newest_first [Samples.gown; Samples.cabin]
                  App.initial) 0%nat); reflexivity.
Defined.

(** C5 as stated fails: two records approved in the same millisecond
    stand next to each other, and neither is strictly newer. *)
Lemma snapshot_order_not_strict :
  ~ (forall (docs : list App.Doc) (w : App.World) (i : nat)
            (a b : App.ApprovedDesign),
       App.approvedDesigns (App.view (App.snapshot_next docs w)) !! i = Some a ->
       App.approvedDesigns (App.view (App.snapshot_next docs w)) !! S i = Some b ->
       App.createdAt a > App.createdAt b).
Proof.
  intros H.
  specialize (H [Samples.gown; Samples.loft] App.initial 0%nat
                (App.to_design Samples.gown) (App.to_design Samples.loft)
                eq_refl eq_refl).
  vm_compute in H. discriminate H.
Qed.

Lemma snapshot_defaults_missing_mode_witness :
  App.mode (App.to_design Samples.gown) = "fashion" /\
  App.mode (App.to_design Samples.loft) = "architecture".
Proof.
  pose proof (proj2 (snapshot_defaults_missing_mode [Samples.gown; Samples.loft]
                       App.initial)) as H.
  split.
  - destruct (H Samples.gown) as (_ & _ & Hmissing & _);
      [apply list_elem_of_here|].
    apply Hmissing. reflexivity.
  - destruct (H Samples.loft) as (_ & _ & _ & Hkept);
      [apply list_elem_of_further, list_elem_of_here|].
    apply Hkept. reflexivity.
Defined.

Lemma snapshot_clears_error_witness :
  App.error (App.view (App.step None (fun s => s)
    (App.handleApproveDesign None 1700000000000 false Samples.ready)
    (App.SnapshotNext 0 [Samples.gown]))) = None.
Proof.
  apply (proj2 (proj2 (proj2 (proj2
    (snapshot_clears_error None (fun s => s) [Samples.gown]
       (App.handleApproveDesign None 1700000000000 false Samples.ready)))))
    0%nat).
  reflexivity.
Defined.

Lemma approve_without_image_writes_nothing_witness :
  App.store_log (App.handleApproveDesign None 1700000000000 true App.initial) =
    App.store_log App.initial.
Proof.
  apply (approve_without_image_writes_nothing None 1700000000000 true App.initial).
  reflexivity.
Defined.

Lemma approve_write_outcomes_witness :
  App.currentImage (App.view
    (App.handleApproveDesign None 1700000000000 true Samples.ready)) = None /\
  App.error (App.view
    (App.handleApproveDesign None 1700000000000 false Samples.ready)) =
    Some "Failed to save design to storage.".
Proof.
  split.
  - apply (approve_write_outcomes None 1700000000000 true Samples.ready);
      reflexivity.
  - apply (approve_write_outcomes None 1700000000000 false Samples.ready);
      reflexivity.
Defined.

(** * Further properties *)

(** ** More on the image request client *)

(** The turn of [generateImage] once more, under a name that the
    names of the module do not hide. *)
Lemma generateImage_turn (net : nat -> ImageRequest.FetchOutcome)
  (prompt : string) (imageBase64 : option string) (retries : nat)
  (c : ImageRequest.Client) :
  ImageRequest.generateImage net prompt imageBase64 retries c =
    match ImageRequest.decode (ImageRequest.isGemini_of imageBase64)
            (net (ImageRequest.answered c)) with
    | inr uri =>
        (inr uri,
         ImageRequest.mkClient (S (ImageRequest.answered c))
           (ImageRequest.trace c ++
            [ImageRequest.Fetch (ImageRequest.request_of prompt imageBase64)]))
    | inl error =>
        if decide (retries < 5)%nat then
          ImageRequest.generateImage net prompt imageBase64 (retries + 1)
            (ImageRequest.mkClient (S (ImageRequest.answered c))
               (ImageRequest.trace c ++
                [ImageRequest.Fetch (ImageRequest.request_of prompt imageBase64);
                 ImageRequest.Sleep (ImageRequest.delay retries)]))
        else
          (inl error,
           ImageRequest.mkClient (S (ImageRequest.answered c))
             (ImageRequest.trace c ++
              [ImageRequest.Fetch (ImageRequest.request_of prompt imageBase64)]))
    end.
Proof.
  rewrite generateImage_unfold. cbv zeta. cbn [ImageRequest.answered ImageRequest.trace].
  rewrite <- app_assoc. reflexivity.
Qed.

Section ImageRequestMore.
Import ImageRequest.

Variable net : nat -> FetchOutcome.
Variables (prompt : string) (imageBase64 : option string).

Local Abbreviation req := (request_of prompt imageBase64).
Local Abbreviation gem := (isGemini_of imageBase64).

(** A call from retry count [retries]: some [n] failed attempts, then a
    last attempt whose outcome is the outcome of the call; the last
    attempt fails only when the retries are used up. *)
Lemma generateImage_cases (m : nat) :
  forall (retries : nat) (c : Client),
    (5 - retries)%nat = m ->
    exists n, (n <= m)%nat /\
      (forall k, (k < n)%nat -> failed gem (net (answered c + k)) = true) /\
      generateImage net prompt imageBase64 retries c =
        (decode gem (net (answered c + n)),
         mkClient (S (answered c + n))
           (trace c ++ failed_attempts req retries n ++ [Fetch req])) /\
      (failed gem (net (answered c + n)) = true -> n = m).
Proof.
  induction m as [|m IH]; intros retries c Hm;
    pose proof (generateImage_turn net prompt imageBase64 retries c) as Hu.
  - exists 0%nat. rewrite Nat.add_0_r. split; [lia|]. split; [intros k Hk; lia|].
    split; [|intros _; reflexivity]. rewrite Hu.
    destruct (decode gem (net (answered c))) as [e|uri]; [|reflexivity].
    destruct (decide (retries < 5)%nat); [lia|reflexivity].
  - destruct (decode gem (net (answered c))) as [e|uri] eqn:Hd.
    + destruct (decide (retries < 5)%nat); [|lia].
      edestruct (IH (retries + 1)%nat) as (n & Hn & Hfail & Heq & Hlast); [lia|].
      rewrite Heq in Hu. clear Heq.
      cbn [answered trace] in *.
      exists (S n). split; [lia|]. split; [|split].
      * intros [|k] Hk.
        -- rewrite Nat.add_0_r. unfold failed. rewrite Hd. reflexivity.
        -- replace (answered c + S k)%nat with (S (answered c) + k)%nat by lia.
           apply Hfail. lia.
      * rewrite Hu.
        replace (answered c + S n)%nat with (S (answered c) + n)%nat by lia.
        replace (retries + 1)%nat with (S retries) by lia.
        cbn [failed_attempts]. rewrite <- !app_assoc. reflexivity.
      * replace (answered c + S n)%nat with (S (answered c) + n)%nat by lia.
        intros H. f_equal. apply Hlast, H.
    + exists 0%nat. rewrite Nat.add_0_r, Hd. split; [lia|].
      split; [intros k Hk; lia|]. split; [exact Hu|].
      unfold failed. rewrite Hd. discriminate.
Qed.

Lemma first_success_some (g : bool) (n : nat) :
  forall from k uri,
    first_success g net from n = Some (k, uri) ->
    (from <= k < from + n)%nat /\ decode g (net k) = inr uri /\
    forall j, (from <= j < k)%nat -> failed g (net j) = true.
Proof.
  induction n as [|n IH]; intros from k uri H; simpl in H; [discriminate|].
  destruct (decode g (net from)) as [e|u] eqn:Hd.
  - apply IH in H as (Hk & Hdk & Hbefore).
    split; [lia|]. split; [exact Hdk|].
    intros j Hj. destruct (decide (j = from)) as [->|Hne].
    + unfold failed. rewrite Hd. reflexivity.
    + apply Hbefore. lia.
  - injection H as <- <-. split; [lia|]. split; [exact Hd|]. intros j Hj. lia.
Qed.

Lemma first_success_none (g : bool) (n : nat) :
  forall from,
    first_success g net from n = None ->
    forall j, (from <= j < from + n)%nat -> failed g (net j) = true.
Proof.
  induction n as [|n IH]; intros from H j Hj; simpl in H; [lia|].
  destruct (decode g (net from)) as [e|u] eqn:Hd; [|discriminate].
  destruct (decide (j = from)) as [->|Hne].
  - unfold failed. rewrite Hd. reflexivity.
  - apply (IH (S from) H). lia.
Qed.

Lemma generateImage_by_first_success :
  generateImage net prompt imageBase64 0 start =
    match first_success gem net 0 6 with
    | Some (n, uri) =>
        (inr uri, mkClient (S n) (failed_attempts req 0 n ++ [Fetch req]))
    | None =>
        (decode gem (net 5), mkClient 6 (failed_attempts req 0 5 ++ [Fetch req]))
    end.
Proof.
  destruct (generateImage_cases 5 0 start eq_refl) as (n & Hn & Hfail & -> & Hlast).
  cbn [answered trace start app Nat.add] in *.
  destruct (first_success gem net 0 6) as [[k uri]|] eqn:Hfs.
  - apply first_success_some in Hfs as (Hk & Hdk & Hbefore).
    assert (n = k) as ->.
    { destruct (lt_eq_lt_dec n k) as [[Hlt| ->]|Hgt]; [|reflexivity|].
      - specialize (Hlast (Hbefore n ltac:(lia))). lia.
      - specialize (Hfail k Hgt). unfold failed in Hfail.
        rewrite Hdk in Hfail. discriminate. }
    rewrite Hdk. reflexivity.
  - pose proof (first_success_none _ _ _ Hfs n ltac:(lia)) as Hf.
    rewrite (Hlast Hf). reflexivity.
Qed.

(** X1. A call returns the first answer, among the first six, on which
    the [try] block does not throw, after one request and one wait for
    each answer before it; when all six fail it ends with the error of
    the sixth, after six requests and five waits. *)
Theorem generateImage_returns_first_success :
  generateImage net prompt imageBase64 0 start =
    match first_success gem net 0 6 with
    | Some (n, uri) =>
        (inr uri, mkClient (S n) (failed_attempts req 0 n ++ [Fetch req]))
    | None =>
        (decode gem (net 5), mkClient 6 (failed_attempts req 0 5 ++ [Fetch req]))
    end.
Proof. exact generateImage_by_first_success. Qed.


Lemma decode_data_uri (g : bool) (o : FetchOutcome) (uri : string) :
  decode g o = inr uri ->
  exists base64, truthy base64 = true /\ uri = "data:image/png;base64," +:+ base64.
Proof.
  unfold decode. destruct o as [|ok status [result|]]; try discriminate;
    destruct (negb ok); try discriminate.
  destruct (extract g result) as [e|base64] eqn:He; [discriminate|].
  intros [= <-]. exists base64. split; [|reflexivity].
  unfold extract in He. destruct g.
  - destruct (gemini_image result) as [b|]; [|discriminate].
    destruct (truthy b) eqn:Hb; [|discriminate]. injection He as <-. exact Hb.
  - destruct (predictions result) as [[|p ps]|]; try discriminate.
    destruct (bytesBase64Encoded p) as [b|]; [|discriminate].
    destruct (truthy b) eqn:Hb; [|discriminate]. injection He as <-. exact Hb.
Qed.


(** X4. Called with a retry count of five or more, the function makes
    its one request and does not retry or wait: a failure of that
    request is the outcome. *)
Theorem generateImage_no_retry_from_five (retries : nat) (c : Client) :
  (5 <= retries)%nat ->
  generateImage net prompt imageBase64 retries c =
    (decode gem (net (answered c)),
     mkClient (S (answered c)) (trace c ++ [Fetch req])).
Proof.
  intros Hr. rewrite generateImage_turn.
  destruct (decode gem (net (answered c))) as [e|uri]; [|reflexivity].
  destruct (decide (retries < 5)%nat); [lia|reflexivity].
Qed.

End ImageRequestMore.

Section ReferenceImage.
Import ImageRequest.

Lemma generateImage_same_request (net : nat -> FetchOutcome)
  (prompt : string) (image1 image2 : option string) (m : nat) :
  request_of prompt image1 = request_of prompt image2 ->
  isGemini_of image1 = isGemini_of image2 ->
  forall retries c, (5 - retries)%nat = m ->
    generateImage net prompt image1 retries c =
    generateImage net prompt image2 retries c.
Proof.
  intros Hreq Hgem. induction m as [|m IH]; intros retries c Hm;
    rewrite (generateImage_turn net prompt image1 retries c),
      (generateImage_turn net prompt image2 retries c), Hreq, Hgem;
    destruct (decode (isGemini_of image2) (net (answered c))); try reflexivity;
    destruct (decide (retries < 5)%nat); try reflexivity; [lia|].
  apply IH. lia.
Qed.

(** X5. An empty string as reference image is no reference image: the
    whole call, requests and outcome, is the call with [null]. *)
Theorem empty_reference_is_no_reference (net : nat -> FetchOutcome)
  (prompt : string) (retries : nat) (c : Client) :
  generateImage net prompt (Some EmptyString) retries c =
  generateImage net prompt None retries c.
Proof.
  apply (generateImage_same_request net prompt _ _ (5 - retries));
    reflexivity.
Qed.

Lemma split_after_comma (header rest : string) :
  has_comma header = false ->
  split comma (header +:+ String comma rest) = header :: split comma rest.
Proof.
  induction header as [|ch h IH]; simpl; [reflexivity|].
  destruct (Ascii.eqb ch comma); simpl; [discriminate|].
  intros H. rewrite (IH H). reflexivity.
Qed.

(** X6. The image data of the request is the text between the first
    and the second comma of the reference: what follows a second comma
    is cut off, and a reference without a comma, though it selects the
    image-to-image endpoint, sends no image data at all. *)
Theorem reference_data_is_second_piece (prompt : string) :
  (forall header payload rest,
     has_comma header = false -> has_comma payload = false ->
     body (request_of prompt
             (Some (header +:+ String comma (payload +:+ String comma rest)))) =
       GeminiBody prompt "image/png" (Some payload) ["IMAGE"]) /\
  (forall reference,
     truthy reference = true -> has_comma reference = false ->
     request_of prompt (Some reference) =
       mkRequest gemini_url "POST" "application/json"
         (GeminiBody prompt "image/png" None ["IMAGE"])).
Proof.
  split.
  - intros header payload rest Hh Hp.
    unfold request_of, build_request.
    assert (Ht : truthy_opt
              (Some (header +:+ String comma (payload +:+ String comma rest))) = true)
      by (destruct header; reflexivity).
    rewrite Ht. cbn [fst body default]. unfold default. cbn [from_option id].
    rewrite (split_after_comma _ _ Hh), (split_after_comma _ _ Hp). reflexivity.
  - intros reference Ht Hc. unfold request_of, build_request. simpl.
    rewrite Ht. simpl. rewrite (split_no_comma _ Hc). reflexivity.
Qed.

Lemma split_nonempty (sep : ascii) (s : string) : split sep s <> [].
Proof.
  destruct s as [|ch s]; simpl; [discriminate|].
  destruct (Ascii.eqb ch sep); [discriminate|].
  destruct (split sep s); discriminate.
Qed.

(** X7. Splitting at a separator loses nothing: joining the pieces with
    the separator gives the string back, and there is one piece more
    than there are separators; in particular there is always a first
    piece. *)
Theorem split_join (sep : ascii) (s : string) :
  join sep (split sep s) = s /\
  length (split sep s) =
    S (length (filter (fun ch => ch = sep) (list_ascii_of_string s))).
Proof.
  induction s as [|ch s [IHj IHl]]; [split; reflexivity|].
  cbn [split list_ascii_of_string]. rewrite filter_cons.
  destruct (Ascii.eqb_spec ch sep) as [->|Hne].
  - rewrite decide_True by reflexivity. split.
    + cbn [join]. pose proof (split_nonempty sep s).
      destruct (split sep s) as [|p ps] eqn:Hs; [contradiction|].
      rewrite <- IHj. reflexivity.
    + cbn [length]. rewrite IHl. reflexivity.
  - rewrite decide_False by exact Hne. pose proof (split_nonempty sep s).
    destruct (split sep s) as [|p ps] eqn:Hs; [contradiction|]. split.
    + rewrite <- IHj. destruct ps; reflexivity.
    + exact IHl.
Qed.


End ReferenceImage.

(** ** More on the listeners *)

Section ListenerMore.
Import App Surface.

Variable __app_id : option string.
Variable trim : string -> string.

Local Abbreviation step := (App.step __app_id trim).
Local Abbreviation run := (App.run __app_id trim).

(** What one event can do to the listeners the store serves: nothing,
    release one, or open one, at the next handle, on the collection of
    the identity that an auth-state callback has just delivered. *)
Lemma step_listeners (w : World) (e : Event) :
  next_handle (step w e) = next_handle w /\
  (listeners (step w e) = listeners w \/
   exists h, listeners (step w e) = delete h (listeners w))
  \/
  exists u, truthy (uid u) = true /\
    next_handle (step w e) = S (next_handle w) /\
    listeners (step w e) =
      <[next_handle w :=
          mkListener (uid u) (designsCollectionPath __app_id (uid u))]>
        (listeners w).
Proof.
  destruct e as [| |user|h docs|h|now acc|i acc|net now]; unfold App.step.
  - left. destruct (authSubscribed w); [auto|]. unfold effect_run.
    destruct (negb (present (auth (view w))) || negb (present (db (view w))));
      [auto|].
    destruct (unsubscribeRef w) as [h|]; simpl; eauto.
  - left. destruct (authSubscribed w); [|auto]. unfold effect_cleanup. simpl.
    destruct (unsubscribeRef w) as [h|]; simpl; eauto.
  - simpl. destruct (authSubscribed w); [|left; auto].
    destruct (valid_identity user) eqn:Hv.
    + destruct user as [u|]; [|discriminate]. right. exists u.
      destruct (auth_callback_with_identity __app_id u
                  (set_currentUser (Some u) w) Hv) as (Hl & Hn & _).
      split; [exact Hv|]. split; [exact Hn|exact Hl].
    + left.
      destruct (auth_callback_without_identity __app_id user
                  (set_currentUser user w) Hv) as (_ & _ & Hl & _).
      split; [|left; exact Hl].
      unfold App.auth_callback. unfold valid_identity in Hv. rewrite Hv.
      reflexivity.
  - left. destruct (present (listeners w !! h)); auto.
  - left. destruct (present (listeners w !! h)); auto.
  - left. unfold handleApproveDesign.
    repeat (match goal with |- context [if ?b then _ else _] => destruct b end);
      auto.
  - left. unfold handleDeleteDesign.
    repeat (match goal with |- context [if ?b then _ else _] => destruct b end);
      auto.
  - left. unfold handleGenerate.
    destruct (negb (truthy (trim (inputText (view w))))
              && negb (truthy_opt (sketchImage (view w)))); [auto|].
    cbv zeta.
    destruct (ImageRequest.generateImage net _ _ 0 ImageRequest.start)
      as [[e|imageUrl] c]; auto.
Qed.

Lemma step_listeners_scoped (w : World) (e : Event) :
  listeners_scoped __app_id w -> listeners_scoped __app_id (step w e).
Proof.
  intros Hs h l Hl.
  destruct (step_listeners w e) as [(Hn & [Heq|(k & Heq)])|(u & Hu & Hn & Heq)];
    rewrite Heq in Hl; rewrite Hn.
  - exact (Hs h l Hl).
  - apply lookup_delete_Some in Hl as [_ Hl]. exact (Hs h l Hl).
  - apply lookup_insert_Some in Hl as [[<- <-]|[_ Hl]].
    + split; [lia|]. split; [exact Hu|reflexivity].
    + destruct (Hs h l Hl) as (Hlt & Hrest). split; [lia|exact Hrest].
Qed.

(** X9. In every state the component can reach, each snapshot listener
    the store serves watches the collection
    [/artifacts/<app id>/users/<uid>/approvedDesigns] of a uid that is
    not empty: no listener is ever opened on a path with a missing
    uid. *)
Theorem reachable_listeners_scoped (events : list Event) (h : nat) (l : Listener) :
  listeners (run initial events) !! h = Some l ->
  truthy (scope l) = true /\
  path l = "/artifacts/" +:+ default "default-app-id" __app_id +:+ "/users/"
             +:+ scope l +:+ "/approvedDesigns".
Proof.
  assert (Hinv : forall w, listeners_scoped __app_id w -> listeners_scoped __app_id (run w events)).
  { induction events as [|e es IH]; intros w Hw; [exact Hw|].
    apply IH, step_listeners_scoped, Hw. }
  intros Hl. eapply Hinv; [|exact Hl].
  intros k l' Hk. simpl in Hk. rewrite lookup_empty in Hk. discriminate.
Qed.

(** X10. Unmounting right after a sign-in releases the listener that
    the sign-in opened: the store serves the same listeners as before
    the sign-in, and the auth-state callback is no longer registered. *)
Theorem cleanup_releases_last_listener (u : User) (w : World) :
  handles_fresh w ->
  truthy (uid u) = true ->
  let w' := effect_cleanup (auth_callback __app_id (Some u) w) in
  listeners w' = listeners w /\ authSubscribed w' = false.
Proof.
  intros Hf Hu. cbv zeta.
  destruct (auth_callback_with_identity __app_id u w Hu) as (Hl & _ & Hr & _).
  unfold effect_cleanup.
  change (unsubscribeRef (set_authSubscribed false (auth_callback __app_id (Some u) w)))
    with (unsubscribeRef (auth_callback __app_id (Some u) w)).
  rewrite Hr.
  change (listeners (unsubscribe (next_handle w)
            (set_authSubscribed false (auth_callback __app_id (Some u) w))))
    with (delete (next_handle w) (listeners (auth_callback __app_id (Some u) w))).
  rewrite Hl. split; [|reflexivity].
  rewrite delete_insert_eq. apply delete_id.
  destruct (listeners w !! next_handle w) as [l|] eqn:Hn; [|reflexivity].
  specialize (Hf (next_handle w) ltac:(eauto)). lia.
Qed.

End ListenerMore.

(** ** More on snapshots *)

Section SnapshotMore.
Import App.

(** X11. Only the last snapshot counts: a snapshot wipes out what an
    earlier snapshot or an earlier listener error left in the list and
    in the error state, while a listener error leaves the list as it
    is. *)
Theorem snapshot_last_wins (docs1 docs2 : list Doc) (w : World) :
  snapshot_next docs2 (snapshot_next docs1 w) = snapshot_next docs2 w /\
  snapshot_next docs2 (snapshot_error w) = snapshot_next docs2 w /\
  approvedDesigns (view (snapshot_error (snapshot_next docs1 w))) =
    approvedDesigns (view (snapshot_next docs1 w)).
Proof. repeat split. Qed.

Lemma to_design_createdAt (doc : Doc) :
  createdAt (to_design doc) = d_createdAt (doc_data doc).
Proof. reflexivity. Qed.

(** X12. When no two documents have the same [createdAt], the list
    shown does not depend on the order in which the snapshot lists its
    documents. *)
Theorem snapshot_order_independent (docs1 docs2 : list Doc) (w1 w2 : World) :
  docs1 ≡ₚ docs2 ->
  NoDup (map (fun doc => d_createdAt (doc_data doc)) docs1) ->
  approvedDesigns (view (snapshot_next docs1 w1)) =
  approvedDesigns (view (snapshot_next docs2 w2)).
Proof.
  intros Hperm Hnodup. rewrite !snapshot_next_designs.
  set (R := fun a b : ApprovedDesign => createdAt b <= createdAt a).
  assert (Htrans : Transitive R) by (intros a b c; unfold R; lia).
  assert (Hsorted : forall l, Sorted R (sort_by by_newest l)).
  { intros l. eapply Sorted_ind with (P := fun k => Sorted R k);
      [constructor| |apply (sort_by_sorted by_newest by_newest_total)].
    intros a k _ IH Hhd. constructor; [exact IH|].
    destruct Hhd as [|b k Hab]; constructor.
    unfold by_newest in Hab. unfold R. lia. }
  apply (Sorted_unique_strong R); [|apply Hsorted|apply Hsorted|].
  - intros a b Ha Hb Hab Hba. unfold R in Hab, Hba.
    rewrite sort_by_perm in Ha, Hb. rewrite <- Hperm in Hb.
    apply list_elem_of_fmap in Ha as (doc1 & -> & Hdoc1).
    apply list_elem_of_fmap in Hb as (doc2 & -> & Hdoc2).
    rewrite !to_design_createdAt in Hab, Hba.
    assert (Heq : d_createdAt (doc_data doc1) = d_createdAt (doc_data doc2)) by lia.
    apply list_elem_of_lookup in Hdoc1 as (i & Hi).
    apply list_elem_of_lookup in Hdoc2 as (j & Hj).
    assert (i = j) as ->.
    { eapply (NoDup_lookup _ i j); [exact Hnodup| |].
      - rewrite list_lookup_fmap, Hi. reflexivity.
      - rewrite list_lookup_fmap, Hj. simpl. rewrite Heq. reflexivity. }
    congruence.
  - rewrite !sort_by_perm. rewrite Hperm. reflexivity.
Qed.

(** X13. Documents with the same [createdAt] are shown in the order in
    which the snapshot lists them. *)
Theorem snapshot_keeps_order_of_ties (t : Z) (docs : list Doc) (w : World) :
  filter (fun d => createdAt d = t)
    (approvedDesigns (view (snapshot_next docs w))) =
  map to_design (filter (fun doc => d_createdAt (doc_data doc) = t) docs).
Proof.
  rewrite snapshot_next_designs, sort_by_newest_stable.
  induction docs as [|doc docs IH]; [reflexivity|].
  cbn [map]. rewrite !filter_cons, IH, to_design_createdAt.
  case_decide; reflexivity.
Qed.

End SnapshotMore.

(** ** Approving and deleting *)

Section WriteMore.
Import App Surface.

Variable __app_id : option string.

(** X14. A delete without the store handle, the auth handle or a
    signed-in identity does nothing at all: no write, no error message,
    no change of the view. *)
Theorem delete_without_identity_is_silent (id : string) (accepted : bool) (w : World) :
  can_delete w = false ->
  handleDeleteDesign __app_id id accepted w = w.
Proof.
  unfold can_delete, handleDeleteDesign. intros H.
  destruct (present (db (view w))), (present (auth (view w)));
    simpl in *; try reflexivity.
  rewrite H. reflexivity.
Qed.

(** X15. A delete that passes its preconditions issues one delete of
    that document in the collection of the signed-in identity, ends
    with [loading] off, and leaves the list and the displayed image
    alone; the error state is cleared if the store accepts and set to
    the delete-failure message if it does not. *)
Theorem delete_write_outcomes (id : string) (accepted : bool) (w : World) :
  can_delete w = true ->
  let w' := handleDeleteDesign __app_id id accepted w in
  (exists uid0,
     (uid <$> currentUser w) = Some uid0 /\
     store_log w' = store_log w ++
       [DeleteDoc (designsCollectionPath __app_id uid0) id accepted]) /\
  approvedDesigns (view w') = approvedDesigns (view w) /\
  currentImage (view w') = currentImage (view w) /\
  loading (view w') = false /\
  error (view w') =
    (if accepted then None else Some "Failed to delete design from storage.").
Proof.
  unfold can_delete, handleDeleteDesign. intros H. cbv zeta.
  destruct (present (db (view w))); [|discriminate].
  destruct (present (auth (view w))); [|discriminate].
  simpl in H. simpl. rewrite H. simpl.
  destruct (uid <$> currentUser w) as [uid0|]; [|discriminate].
  split; [exists uid0; destruct accepted; auto|].
  destruct accepted; auto.
Qed.

(** X16. What an accepted approve writes comes back unchanged: the
    record that the snapshot callback makes of the written document,
    under whatever id the store gave it, holds the text of the input
    field, the selected style, the name of the mode, the displayed
    image and the time of the approve, and its mode is never
    defaulted. *)
Theorem approved_design_round_trip (now : Z) (w : World) (id : string) :
  can_approve w = true ->
  exists collection written image,
    store_log (handleApproveDesign __app_id now true w) =
      store_log w ++ [AddDoc collection written true] /\
    currentImage (view w) = Some image /\
    d_mode written = Some (mode_name (v_mode (view w))) /\
    to_design (mkDoc id written) =
      mkDesign id (inputText (view w)) (selectedStyle (view w))
        (mode_name (v_mode (view w))) image now.
Proof.
  unfold can_approve, handleApproveDesign. intros Hpre.
  destruct (present (db (view w))); [|discriminate].
  destruct (present (auth (view w))); [|discriminate].
  destruct (currentImage (view w)) as [image|] eqn:Himg; [|discriminate].
  simpl in Hpre. destruct (truthy image) eqn:Ht; [|discriminate].
  simpl in Hpre. cbv zeta. simpl. rewrite Ht, Hpre. simpl.
  eexists _, _, image. repeat split.
Qed.

(** X17. After an approve that the store accepted, a further approve
    is refused and writes nothing, since the displayed image is gone;
    after one that the store rejected, the preconditions still hold and
    the approve can be tried again. *)
Theorem approve_after_approve (now later : Z) (accepted : bool) (w : World) :
  can_approve w = true ->
  let saved := handleApproveDesign __app_id now true w in
  let refused := handleApproveDesign __app_id now false w in
  store_log (handleApproveDesign __app_id later accepted saved) = store_log saved /\
  error (view (handleApproveDesign __app_id later accepted saved)) =
    Some "Cannot approve design: No generated image or storage not ready." /\
  can_approve refused = true.
Proof.
  unfold can_approve, handleApproveDesign. intros Hpre. cbv zeta.
  destruct (present (db (view w))) eqn:Hdb; [|discriminate].
  destruct (present (auth (view w))) eqn:Hauth; [|discriminate].
  destruct (currentImage (view w)) as [image|] eqn:Himg; [|discriminate].
  simpl in Hpre. destruct (truthy image) eqn:Ht; [|discriminate].
  simpl in Hpre. simpl. rewrite Ht, Hpre. simpl.
  rewrite Hdb, Hauth. simpl. rewrite Himg. simpl. rewrite Ht, Hpre.
  repeat split.
Qed.

End WriteMore.

(** ** Generating *)

Section GenerateMore.
Import App Surface.

Variable trim : string -> string.
Variable net : nat -> ImageRequest.FetchOutcome.

Lemma has_input_guard (v : View) :
  negb (truthy (trim (inputText v))) && negb (truthy_opt (sketchImage v)) =
  negb (has_input trim v).
Proof. unfold has_input. destruct (truthy _), (truthy_opt _); reflexivity. Qed.

Lemma first_success_failed (g : bool) (n from : nat) :
  first_success g net from (S n) = None ->
  exists error, ImageRequest.decode g (net (from + n)) = inl error.
Proof.
  intros H. pose proof (first_success_none net g (S n) from H (from + n)%nat
                          ltac:(lia)) as Hf.
  unfold ImageRequest.failed in Hf.
  destruct (ImageRequest.decode g (net (from + n))) as [e|u]; [eauto|discriminate].
Qed.

(** X18. A generation with neither text (after trimming) nor sketch
    only sets the validation message: no request is sent, [loading]
    stays off and the displayed image stays. *)
Theorem generate_without_input_sends_nothing (now : Z) (w : World) :
  has_input trim (view w) = false ->
  handleGenerate trim net now w =
    on_view (setError (Some "Please enter a description or upload a sketch.")) w.
Proof.
  intros H. unfold handleGenerate. rewrite has_input_guard, H. reflexivity.
Qed.

(** X19. A generation with input ends with [loading] off. If one of the
    first six answers carries an image, the first such image is
    displayed, the error state is empty, and the session history gets
    one new entry in front, with the subject (not the whole prompt),
    the mode, the style and whether a sketch was used. If all six fail,
    the failure message is set, nothing is displayed, the image shown
    before being gone, and the history is unchanged. *)
Theorem generate_outcomes (now : Z) (w : World) :
  has_input trim (view w) = true ->
  let v := view w in
  let w' := handleGenerate trim net now w in
  loading (view w') = false /\
  match first_success (ImageRequest.isGemini_of (sketchImage v)) net 0 6 with
  | Some (n, url) =>
      currentImage (view w') = Some url /\
      error (view w') = None /\
      history (view w') =
        mkHistory now url (subject trim v) (v_mode v) (selectedStyle v)
          (truthy_opt (sketchImage v)) :: history v
  | None =>
      currentImage (view w') = None /\
      error (view w') =
        Some "Failed to generate visualization. Please try again. The AI model may be unavailable." /\
      history (view w') = history v
  end.
Proof.
  intros H. cbv zeta. unfold handleGenerate.
  rewrite has_input_guard, H. cbn [negb]. cbv zeta.
  rewrite generateImage_by_first_success.
  destruct (first_success _ net 0 6) as [[n url]|] eqn:Hfs.
  - repeat split.
  - destruct (first_success_failed _ 5 0 Hfs) as (e & He).
    cbn [Nat.add] in He. rewrite He. repeat split.
Qed.

(** X20. A generation with input sends between one and six requests,
    with the waits of the schedule between them, and nothing to the
    store. Every request carries the prompt built from the view, and
    goes to the image-to-image endpoint exactly when a sketch is set. *)
Theorem generate_requests (now : Z) (w : World) :
  has_input trim (view w) = true ->
  let v := view w in
  let w' := handleGenerate trim net now w in
  let request := ImageRequest.request_of (fullPrompt trim v) (sketchImage v) in
  (exists n, (n <= 5)%nat /\
     network_log w' =
       network_log w ++ ImageRequest.failed_attempts request 0 n
         ++ [ImageRequest.Fetch request]) /\
  ImageRequest.url request =
    (if truthy_opt (sketchImage v) then ImageRequest.gemini_url
     else ImageRequest.imagen_url) /\
  store_log w' = store_log w.
Proof.
  intros H. cbv zeta. unfold handleGenerate.
  rewrite has_input_guard, H. cbn [negb]. cbv zeta.
  rewrite generateImage_by_first_success.
  split; [|split].
  - destruct (first_success _ net 0 6) as [[n url]|] eqn:Hfs.
    + apply first_success_some in Hfs as (Hn & _).
      exists n. split; [lia|]. reflexivity.
    + destruct (first_success_failed _ 5 0 Hfs) as (e & He).
      cbn [Nat.add] in He. rewrite He. exists 5%nat. split; [lia|]. reflexivity.
  - unfold ImageRequest.request_of, ImageRequest.build_request.
    destruct (truthy_opt (sketchImage (view w))); reflexivity.
  - destruct (first_success _ net 0 6) as [[n url]|] eqn:Hfs; [reflexivity|].
    destruct (first_success_failed _ 5 0 Hfs) as (e & He).
    cbn [Nat.add] in He. rewrite He. reflexivity.
Qed.

(** X21. A sketch alone is enough: once a picked file has been read to
    a non-empty data URL, a generation passes the input test whatever
    the text field holds, and with a blank text the prompt speaks of
    'the structure shown in the sketch'. Reading a file also clears the
    error state. *)
Theorem sketch_alone_is_enough (image : string) (w : World) :
  truthy image = true ->
  let w1 := handleFileUpload (Some (Some image)) w in
  error (view w1) = None /\
  has_input trim (view w1) = true /\
  (truthy (trim (inputText (view w))) = false ->
   subject trim (view w1) = "the structure shown in the sketch").
Proof.
  intros Ht. cbv zeta. unfold handleFileUpload, has_input, subject. simpl.
  rewrite Ht. split; [reflexivity|]. split; [apply orb_true_r|].
  intros ->. reflexivity.
Qed.

End GenerateMore.

Section RunMore.
Import App Surface.

Variable __app_id : option string.
Variable trim : string -> string.

Local Abbreviation step := (App.step __app_id trim).
Local Abbreviation run := (App.run __app_id trim).

Lemma step_history (w : World) (e : Event) :
  history (view (step w e)) = history (view w) \/
  exists item, history (view (step w e)) = item :: history (view w).
Proof.
  destruct e as [| |user|h docs|h|now acc|i acc|net now]; unfold App.step.
  - left. destruct (authSubscribed w); [auto|]. unfold effect_run.
    destruct (negb (present (auth (view w))) || negb (present (db (view w))));
      [auto|].
    destruct (unsubscribeRef w) as [h|]; reflexivity.
  - left. destruct (authSubscribed w); [|auto]. unfold effect_cleanup. simpl.
    destruct (unsubscribeRef w) as [h|]; reflexivity.
  - left. simpl. destruct (authSubscribed w); [|auto].
    unfold auth_callback. destruct (negb _); reflexivity.
  - left. destruct (present (listeners w !! h)); auto.
  - left. destruct (present (listeners w !! h)); auto.
  - left. unfold handleApproveDesign.
    repeat (match goal with |- context [if ?b then _ else _] => destruct b end);
      auto.
  - left. unfold handleDeleteDesign.
    repeat (match goal with |- context [if ?b then _ else _] => destruct b end);
      auto.
  - unfold handleGenerate.
    destruct (negb (truthy (trim (inputText (view w))))
              && negb (truthy_opt (sketchImage (view w)))); [auto|].
    cbv zeta.
    destruct (ImageRequest.generateImage net _ _ 0 ImageRequest.start)
      as [[e|imageUrl] c]; [left; reflexivity|right; eexists; reflexivity].
Qed.

Lemma act_history (w : World) (a : Action) :
  is_clear a = false ->
  history (view (act __app_id trim w a)) = history (view w) \/
  exists item, history (view (act __app_id trim w a)) = item :: history (view w).
Proof.
  intros Hc. destruct a as [e|text| |file|p|t|err|sup lis| |i];
    try discriminate; unfold act.
  - apply step_history.
  - left. reflexivity.
  - left. reflexivity.
  - left. destruct file; reflexivity.
  - left. destruct p as [m|k]; simpl.
    + destruct (same_mode m (v_mode (view w))); reflexivity.
    + destruct (styles (v_mode (view w)) !! k); reflexivity.
  - left. reflexivity.
  - left. simpl. unfold speech_failed. destruct (negb _ && negb _); reflexivity.
  - left. simpl. unfold toggleListening. destruct sup, lis; reflexivity.
  - left. simpl. unfold recall.
    destruct (take 4 (history (view w)) !! i) as [item|]; [|reflexivity].
    cbv zeta. destruct (same_mode (h_mode item) (v_mode (view w))); reflexivity.
Qed.

(** X22. Only the Clear button of the history panel removes entries
    from the session history. After any run of what the user, the SDK
    and the browser can do, the history is the entries added since the
    last Clear, newest first and at most one for each action, in front
    of the history from before the run, which is still there, whole
    and in order, unless Clear was pressed; and pressing Clear leaves
    the history empty. *)
Theorem history_lost_only_by_clear (actions : list Action) (w : World) :
  (exists newer,
     history (view (perform __app_id trim w actions)) =
       newer ++ (if existsb is_clear actions then [] else history (view w)) /\
     (length newer <= length actions)%nat) /\
  history (view (act __app_id trim w HistoryCleared)) = [].
Proof.
  split; [|reflexivity].
  revert w. induction actions as [|a acts IH]; intros w.
  - exists []. split; [reflexivity|simpl; lia].
  - destruct (IH (act __app_id trim w a)) as (newer & Hn & Hlen).
    change (perform __app_id trim w (a :: acts))
      with (perform __app_id trim (act __app_id trim w a) acts).
    rewrite Hn. cbn [existsb length].
    destruct (existsb is_clear acts).
    + exists newer. rewrite orb_true_r. split; [reflexivity|lia].
    + rewrite orb_false_r. destruct (is_clear a) eqn:Hc.
      * destruct a; try discriminate. exists newer. split; [reflexivity|lia].
      * destruct (act_history w a Hc) as [->|(item & ->)].
        -- exists newer. split; [reflexivity|lia].
        -- exists (newer ++ [item]). rewrite <- app_assoc.
           split; [reflexivity|]. rewrite length_app. simpl. lia.
Qed.

(** No event sets or unsets the handles. *)
Lemma step_keeps_handles (w : World) (e : Event) :
  db (view (step w e)) = db (view w) /\ auth (view (step w e)) = auth (view w).
Proof.
  destruct e as [| |user|h docs|h|now acc|i acc|net now]; unfold App.step.
  - destruct (authSubscribed w); [auto|]. unfold effect_run.
    destruct (negb (present (auth (view w))) || negb (present (db (view w))));
      [auto|].
    destruct (unsubscribeRef w); auto.
  - destruct (authSubscribed w); [|auto]. unfold effect_cleanup. simpl.
    destruct (unsubscribeRef w); auto.
  - simpl. destruct (authSubscribed w); [|auto].
    unfold auth_callback. destruct (negb _); auto.
  - destruct (present (listeners w !! h)); auto.
  - destruct (present (listeners w !! h)); auto.
  - unfold handleApproveDesign.
    repeat (match goal with |- context [if ?b then _ else _] => destruct b end);
      auto.
  - unfold handleDeleteDesign.
    repeat (match goal with |- context [if ?b then _ else _] => destruct b end);
      auto.
  - unfold handleGenerate.
    destruct (negb (truthy (trim (inputText (view w))))
              && negb (truthy_opt (sketchImage (view w)))); [auto|].
    cbv zeta.
    destruct (ImageRequest.generateImage net _ _ 0 ImageRequest.start)
      as [[e|imageUrl] c]; auto.
Qed.

(** What no event changes while the store handle is missing. *)
Lemma step_without_storage (w : World) (e : Event) :
  db (view w) = None -> authSubscribed w = false -> listeners w = ∅ ->
  authSubscribed (step w e) = false /\
  listeners (step w e) = ∅ /\ store_log (step w e) = store_log w /\
  approvedDesigns (view (step w e)) = approvedDesigns (view w).
Proof.
  intros Hdb Hsub Hl.
  destruct e as [| |user|h docs|h|now acc|i acc|net now]; unfold App.step.
  - rewrite Hsub. unfold effect_run. rewrite Hdb. simpl.
    rewrite orb_true_r. auto.
  - rewrite Hsub. auto.
  - simpl. rewrite Hsub. auto.
  - rewrite Hl, lookup_empty. auto.
  - rewrite Hl, lookup_empty. auto.
  - unfold handleApproveDesign. rewrite Hdb. simpl. auto.
  - unfold handleDeleteDesign. rewrite Hdb. simpl. auto.
  - unfold handleGenerate.
    destruct (negb (truthy (trim (inputText (view w))))
              && negb (truthy_opt (sketchImage (view w)))); [simpl; auto|].
    cbv zeta.
    destruct (ImageRequest.generateImage net _ _ 0 ImageRequest.start)
      as [[e|imageUrl] c]; simpl; auto.
Qed.

(** X23. If the set-up of the SDK fails, the failure message is set and
    the handles stay unset; from then on, whatever the user does and
    whatever the SDK reports, the component never subscribes to the
    auth state, never opens a listener, never writes to the store and
    never shows a saved design. *)
Theorem without_storage_store_is_untouched
  (token : option string) (accepts : SignIn -> bool) (events : list Event) :
  let w0 := fst (initializeFirebase token false accepts first_render) in
  let w := run w0 events in
  error (view w0) = Some "Failed to initialize storage." /\
  db (view w) = None /\ auth (view w) = None /\
  authSubscribed w = false /\ listeners w = ∅ /\
  store_log w = [] /\ approvedDesigns (view w) = [].
Proof.
  cbv zeta. split; [reflexivity|].
  set (w0 := fst (initializeFirebase token false accepts first_render)).
  assert (Hinv : forall w,
            db (view w) = None -> auth (view w) = None ->
            authSubscribed w = false -> listeners w = ∅ ->
            db (view (run w events)) = None /\ auth (view (run w events)) = None /\
            authSubscribed (run w events) = false /\ listeners (run w events) = ∅ /\
            store_log (run w events) = store_log w /\
            approvedDesigns (view (run w events)) = approvedDesigns (view w)).
  { induction events as [|e es IH]; intros w Hdb Hauth Hsub Hl; [auto 10|].
    destruct (step_without_storage w e Hdb Hsub Hl) as (H2 & H3 & H4 & H5).
    destruct (step_keeps_handles w e) as (Hd & Ha).
    change (run w (e :: es)) with (run (step w e) es).
    rewrite <- H4, <- H5. apply IH; congruence. }
  apply (Hinv w0); reflexivity.
Qed.

(** X24. When the set-up goes through, the handles are set before the
    sign-in is tried and stay set if it is rejected: a defined token,
    even an empty one, is used as a custom token and there is no
    falling back to an anonymous sign-in. After a rejected sign-in the
    listener effect still registers the auth-state callback, and an
    approve is refused for want of an identity, not of storage. After
    an accepted one the component is in the state [initial]. *)
Theorem initialisation_outcomes (token : option string) (accepts : SignIn -> bool)
  (now : Z) (accepted : bool) (image : string) :
  let attempt := match token with Some t => CustomToken t | None => Anonymous end in
  let '(w, tried) := initializeFirebase token true accepts first_render in
  tried = Some attempt /\
  db (view w) = Some firestoreDb /\ auth (view w) = Some firebaseAuth /\
  (accepts attempt = true -> w = initial) /\
  (accepts attempt = false ->
   error (view w) = Some "Failed to initialize storage." /\
   authSubscribed (effect_run w) = true /\
   (truthy image = true ->
    let w1 := handleApproveDesign __app_id now accepted
                (on_view (setCurrentImage (Some image)) w) in
    error (view w1) = Some "Cannot approve design: Authentication failed." /\
    store_log w1 = [])).
Proof.
  cbv zeta. unfold initializeFirebase. cbv zeta.
  destruct (accepts _) eqn:Hacc.
  - split; [reflexivity|]. split; [reflexivity|]. split; [reflexivity|].
    split; [intros _; reflexivity|discriminate].
  - split; [reflexivity|]. split; [reflexivity|]. split; [reflexivity|].
    split; [discriminate|]. intros _.
    split; [reflexivity|]. split; [reflexivity|].
    intros Ht. unfold handleApproveDesign. simpl. rewrite Ht. simpl. auto.
Qed.

End RunMore.

(** ** From a generation to an approve *)

Section GenerateThenApprove.
Import App Surface.

Variable __app_id : option string.
Variable trim : string -> string.
Variable net : nat -> ImageRequest.FetchOutcome.

(** X25. An image that a generation has put on display can be approved:
    with the handles set and a user signed in, the approve that follows
    a successful generation passes its preconditions and writes a
    document that holds the generated data URL and the text of the
    input field as it stands, untrimmed and without the prompt built
    around it. *)
Theorem generated_image_can_be_approved (now later : Z) (w : World)
  (n : nat) (url : string) :
  has_input trim (view w) = true ->
  can_delete w = true ->
  first_success (ImageRequest.isGemini_of (sketchImage (view w))) net 0 6 =
    Some (n, url) ->
  let w1 := handleGenerate trim net now w in
  can_approve w1 = true /\
  exists collection written,
    store_log (handleApproveDesign __app_id later true w1) =
      store_log w ++ [AddDoc collection written true] /\
    d_imageUrl written = url /\
    d_prompt written = inputText (view w) /\
    d_createdAt written = later.
Proof.
  intros Hin Hdel Hfs. cbv zeta.
  pose proof Hfs as Hfs'.
  apply first_success_some in Hfs' as (_ & Hdec & _).
  apply decode_data_uri in Hdec as (base64 & _ & ->).
  unfold handleGenerate. rewrite has_input_guard, Hin. cbn [negb]. cbv zeta.
  rewrite generateImage_by_first_success, Hfs.
  unfold can_delete in Hdel. unfold can_approve, handleApproveDesign.
  destruct (present (db (view w))) eqn:Hdb; [|discriminate].
  destruct (present (auth (view w))) eqn:Hauth; [|discriminate].
  simpl in Hdel. simpl. rewrite Hdb, Hauth, Hdel. simpl.
  split; [reflexivity|].
  destruct (uid <$> currentUser w) as [uid0|]; [|discriminate].
  eexists _, _. repeat split.
Qed.

(** X26. Approving, deleting and generating never change the list of
    saved designs, the user id, the listeners or the stored handle:
    the list changes only when a listener or the auth state reports. *)
Theorem handlers_leave_saved_list (now : Z) (accepted : bool) (id : string)
  (w : World) :
  let unchanged (w' : World) :=
    approvedDesigns (view w') = approvedDesigns (view w) /\
    userId (view w') = userId (view w) /\
    listeners w' = listeners w /\
    unsubscribeRef w' = unsubscribeRef w in
  unchanged (handleApproveDesign __app_id now accepted w) /\
  unchanged (handleDeleteDesign __app_id id accepted w) /\
  unchanged (handleGenerate trim net now w).
Proof.
  cbv zeta. split; [|split].
  - unfold handleApproveDesign.
    repeat (match goal with |- context [if ?b then _ else _] => destruct b end);
      auto.
  - unfold handleDeleteDesign.
    repeat (match goal with |- context [if ?b then _ else _] => destruct b end);
      auto.
  - unfold handleGenerate.
    destruct (negb (truthy (trim (inputText (view w))))
              && negb (truthy_opt (sketchImage (view w)))); [auto|].
    cbv zeta.
    destruct (ImageRequest.generateImage net _ _ 0 ImageRequest.start)
      as [[e|imageUrl] c]; auto.
Qed.

End GenerateThenApprove.

(** ** The interaction surface *)

Section SurfaceFacts.
Import App Surface.

Lemma append_cons (ch : ascii) (a b : string) :
  String ch a +:+ b = String ch (a +:+ b).
Proof. reflexivity. Qed.

Lemma append_assoc (a b c : string) : (a +:+ b) +:+ c = a +:+ (b +:+ c).
Proof.
  induction a as [|ch a IH]; [reflexivity|].
  rewrite !append_cons, IH. reflexivity.
Qed.

Lemma append_empty (a : string) : a +:+ EmptyString = a.
Proof.
  induction a as [|ch a IH]; [reflexivity|].
  rewrite append_cons, IH. reflexivity.
Qed.

Lemma truthy_append (a b : string) : truthy a = true -> truthy (a +:+ b) = true.
Proof. destruct a; [discriminate|reflexivity]. Qed.

Lemma dictate_from_text (ts : list string) :
  forall prev,
    truthy prev = true ->
    foldl (fun text t => append_transcript t text) prev ts = join space (prev :: ts).
Proof.
  induction ts as [|t ts IH]; intros prev Hp; [reflexivity|].
  cbn [foldl]. rewrite IH.
  - unfold append_transcript. rewrite Hp.
    destruct ts as [|t2 ts]; cbn [join]; [reflexivity|].
    rewrite append_assoc. reflexivity.
  - unfold append_transcript. apply truthy_append, Hp.
Qed.

(** X27. Dictation adds to the text and never replaces it: each
    recognised phrase is appended to the input text, after one space
    when the text is not empty. Phrases (none of them empty) dictated
    into an empty field give the phrases joined by single spaces, and
    dictated after a text they leave that text in front. *)
Theorem transcripts_accumulate (ts : list string) (v : View) :
  let dictate := foldl (fun v t => setInputText (append_transcript t) v) in
  (exists rest, inputText (dictate v ts) = inputText v +:+ rest) /\
  (Forall (fun t => truthy t = true) ts ->
   inputText v = EmptyString ->
   inputText (dictate v ts) = join space ts).
Proof.
  cbv zeta.
  assert (Htext : forall v0,
            inputText (foldl (fun v t => setInputText (append_transcript t) v) v0 ts) =
            foldl (fun text t => append_transcript t text) (inputText v0) ts).
  { induction ts as [|t ts IH]; intros v0; [reflexivity|].
    cbn [foldl]. rewrite IH. reflexivity. }
  rewrite Htext. clear Htext. split.
  - generalize (inputText v) as prev. induction ts as [|t ts IH]; intros prev.
    + exists EmptyString. symmetry. apply append_empty.
    + cbn [foldl]. destruct (IH (append_transcript t prev)) as (rest & Hrest).
      rewrite Hrest. unfold append_transcript.
      exists (((if truthy prev then " " else EmptyString) +:+ t) +:+ rest).
      apply append_assoc.
  - intros Hall ->. destruct Hall as [|t ts Ht Hall]; [reflexivity|].
    cbn [foldl]. unfold append_transcript at 2. cbn [truthy String.append].
    apply dictate_from_text, Ht.
Qed.

(** X28. The caption of the loading placeholder is the prompt itself
    when it has at most 50 code units; a longer prompt is cut to its
    first 50 code units followed by three full stops. A caption never
    has more than 53 code units. *)
Theorem caption_bounded (prompt : utf16) :
  (length (caption prompt) <= 53)%nat /\
  ((length prompt <= 50)%nat -> caption prompt = prompt) /\
  ((50 < length prompt)%nat ->
   caption prompt = take 50 prompt ++ dots /\
   length (caption prompt) = 53%nat).
Proof.
  unfold caption. destruct (Nat.ltb_spec 50 (length prompt)) as [Hlong|Hshort].
  - rewrite length_app, length_take. cbn [length dots].
    split; [lia|]. split; [lia|]. intros _. split; [reflexivity|lia].
  - rewrite app_nil_r, take_ge by exact Hshort.
    split; [lia|]. split; [reflexivity|lia].
Qed.

Lemma same_mode_eq (a b : DesignMode) : same_mode a b = true -> a = b.
Proof. destruct a, b; simpl; congruence. Qed.

Lemma pick_keeps_style_valid (v : View) (p : Pick) :
  selectedStyle v ∈ styles (v_mode v) ->
  selectedStyle (pick v p) ∈ styles (v_mode (pick v p)).
Proof.
  intros Hv. destruct p as [m|i]; unfold pick.
  - destruct (same_mode m (v_mode v)) eqn:Hm.
    + apply same_mode_eq in Hm. subst m. exact Hv.
    + destruct m; apply list_elem_of_here.
  - destruct (styles (v_mode v) !! i) as [style|] eqn:Hi; [|exact Hv].
    apply (list_elem_of_lookup_2 _ i). exact Hi.
Qed.

(** X29. The selected style always belongs to the mode on display:
    whatever mode and style buttons are pressed, in whatever order,
    starting from the first render, the selected style is one of the
    styles listed for the current mode. The two lists have no
    duplicates, so that each button has its own key. *)
Theorem style_matches_mode (picks : list Pick) :
  let v := foldl pick first_view picks in
  selectedStyle v ∈ styles (v_mode v) /\
  NoDup (styles (v_mode v)).
Proof.
  cbv zeta. split.
  - assert (Hinv : forall v, selectedStyle v ∈ styles (v_mode v) ->
              selectedStyle (foldl pick v picks) ∈ styles (v_mode (foldl pick v picks))).
    { induction picks as [|p ps IH]; intros v Hv; [exact Hv|].
      apply IH, pick_keeps_style_valid, Hv. }
    apply Hinv. apply list_elem_of_here.
  - destruct (v_mode (foldl pick first_view picks));
      apply (bool_decide_unpack _); vm_compute; reflexivity.
Qed.

End SurfaceFacts.

(** ** Instances of the further properties *)


Lemma generateImage_no_retry_from_five_witness :
  ImageRequest.generateImage Samples.dead_net "a red dress" None 5
    ImageRequest.start =
    (inl (ImageRequest.HttpError 503),
     ImageRequest.mkClient 1
       [ImageRequest.Fetch (ImageRequest.request_of "a red dress" None)]).
Proof.
  apply (generateImage_no_retry_from_five Samples.dead_net "a red dress" None
           5 ImageRequest.start).
  lia.
Defined.

Lemma reference_data_is_second_piece_witness :
  ImageRequest.body (ImageRequest.request_of "a red dress"
    (Some "data:image/png;base64,QUJD,tail")) =
    ImageRequest.GeminiBody "a red dress" "image/png" (Some "QUJD") ["IMAGE"] /\
  ImageRequest.request_of "a red dress" (Some "QUJD") =
    ImageRequest.mkRequest ImageRequest.gemini_url "POST" "application/json"
      (ImageRequest.GeminiBody "a red dress" "image/png" None ["IMAGE"]).
Proof.
  split.
  - apply (proj1 (reference_data_is_second_piece "a red dress")
             "data:image/png;base64" "QUJD" "tail"); reflexivity.
  - apply (proj2 (reference_data_is_second_piece "a red dress") "QUJD");
      reflexivity.
Defined.


Lemma reachable_listeners_scoped_witness :
  truthy "A" = true /\
  "/artifacts/default-app-id/users/A/approvedDesigns" =
    "/artifacts/" +:+ default "default-app-id" None +:+ "/users/" +:+ "A"
      +:+ "/approvedDesigns".
Proof.
  apply (reachable_listeners_scoped None MoreSamples.keep
           [App.EffectRun; App.AuthStateChanged (Some Samples.userA)] 0%nat
           (App.mkListener "A" "/artifacts/default-app-id/users/A/approvedDesigns")).
  vm_compute. reflexivity.
Defined.

Lemma cleanup_releases_last_listener_witness :
  App.listeners
    (App.effect_cleanup (App.auth_callback None (Some Samples.userA) App.initial)) =
    App.listeners App.initial /\
  App.authSubscribed
    (App.effect_cleanup (App.auth_callback None (Some Samples.userA) App.initial)) =
    false.
Proof.
  apply (cleanup_releases_last_listener None Samples.userA App.initial).
  - intros h [l Hl]. vm_compute in Hl. discriminate Hl.
  - reflexivity.
Defined.

Lemma snapshot_order_independent_witness :
  App.approvedDesigns (App.view
    (App.snapshot_next [Samples.gown; Samples.cabin] App.initial)) =
  App.approvedDesigns (App.view
    (App.snapshot_next [Samples.cabin; Samples.gown] Samples.ready)).
Proof.
  apply (snapshot_order_independent [Samples.gown; Samples.cabin]
           [Samples.cabin; Samples.gown] App.initial Samples.ready).
  - apply Permutation_swap.
  - apply (bool_decide_unpack _). vm_compute. reflexivity.
Defined.

Lemma delete_without_identity_is_silent_witness :
  App.handleDeleteDesign None "d1" false App.initial = App.initial.
Proof.
  apply (delete_without_identity_is_silent None "d1" false App.initial).
  reflexivity.
Defined.

Lemma delete_write_outcomes_witness :
  App.error (App.view (App.handleDeleteDesign None "d1" false Samples.ready)) =
    Some "Failed to delete design from storage.".
Proof.
  apply (delete_write_outcomes None "d1" false Samples.ready). reflexivity.
Defined.

Lemma approved_design_round_trip_witness :
  exists collection written image,
    App.store_log (App.handleApproveDesign None 1700000000000 true Samples.ready) =
      App.store_log Samples.ready ++ [App.AddDoc collection written true] /\
    App.currentImage (App.view Samples.ready) = Some image /\
    App.d_mode written = Some (App.mode_name (App.v_mode (App.view Samples.ready))) /\
    App.to_design (App.mkDoc "d9" written) =
      App.mkDesign "d9" (App.inputText (App.view Samples.ready))
        (App.selectedStyle (App.view Samples.ready))
        (App.mode_name (App.v_mode (App.view Samples.ready))) image 1700000000000.
Proof.
  apply (approved_design_round_trip None 1700000000000 Samples.ready "d9").
  reflexivity.
Defined.

Lemma approve_after_approve_witness :
  App.can_approve (App.handleApproveDesign None 1700000000000 false Samples.ready) =
    true.
Proof.
  apply (approve_after_approve None 1700000000000 1700000000001 true Samples.ready).
  reflexivity.
Defined.

Lemma generate_without_input_sends_nothing_witness :
  App.handleGenerate MoreSamples.keep Samples.flaky_net 1700000000000 App.initial =
    App.on_view (App.setError (Some "Please enter a description or upload a sketch."))
      App.initial.
Proof.
  apply (generate_without_input_sends_nothing MoreSamples.keep Samples.flaky_net
           1700000000000 App.initial).
  reflexivity.
Defined.

Lemma generate_outcomes_witness :
  App.loading (App.view
    (App.handleGenerate MoreSamples.keep Samples.flaky_net 1700000000000
       MoreSamples.typed)) = false.
Proof.
  apply (generate_outcomes MoreSamples.keep Samples.flaky_net 1700000000000
           MoreSamples.typed).
  reflexivity.
Defined.

Lemma generate_requests_witness :
  App.store_log
    (App.handleGenerate MoreSamples.keep Samples.flaky_net 1700000000000
       MoreSamples.typed) = App.store_log MoreSamples.typed.
Proof.
  apply (generate_requests MoreSamples.keep Samples.flaky_net 1700000000000
           MoreSamples.typed).
  reflexivity.
Defined.

Lemma sketch_alone_is_enough_witness :
  Surface.has_input MoreSamples.keep
    (App.view (Surface.handleFileUpload (Some (Some MoreSamples.sketch_url))
                 App.initial)) = true.
Proof.
  apply (sketch_alone_is_enough MoreSamples.keep MoreSamples.sketch_url App.initial).
  reflexivity.
Defined.

Lemma initialisation_outcomes_witness :
  fst (Surface.initializeFirebase None true (fun _ => true) Surface.first_render) =
    App.initial /\
  App.error (App.view
    (fst (Surface.initializeFirebase (Some EmptyString) true (fun _ => false)
            Surface.first_render))) = Some "Failed to initialize storage.".
Proof.
  split.
  - pose proof (initialisation_outcomes None None (fun _ => true) 0 true
                  MoreSamples.sketch_url) as H.
    cbv zeta in H.
    destruct (Surface.initializeFirebase None true (fun _ => true)
                Surface.first_render) as [w tried].
    destruct H as (_ & _ & _ & H & _). apply H. reflexivity.
  - pose proof (initialisation_outcomes None (Some EmptyString) (fun _ => false)
                  0 true MoreSamples.sketch_url) as H.
    cbv zeta in H.
    destruct (Surface.initializeFirebase (Some EmptyString) true (fun _ => false)
                Surface.first_render) as [w tried].
    destruct H as (_ & _ & _ & _ & H). apply H. reflexivity.
Defined.

Lemma generated_image_can_be_approved_witness :
  App.can_approve
    (App.handleGenerate MoreSamples.keep Samples.flaky_net 1700000000000
       MoreSamples.typed) = true.
Proof.
  apply (generated_image_can_be_approved None MoreSamples.keep Samples.flaky_net
           1700000000000 1700000000001 MoreSamples.typed 2
           "data:image/png;base64,QUJD"); reflexivity.
Defined.

Lemma transcripts_accumulate_witness :
  App.inputText
    (foldl (fun v t => Surface.setInputText (Surface.append_transcript t) v)
       App.initial_view ["a red"; "dress"]) = "a red dress".
Proof.
  apply (proj2 (transcripts_accumulate ["a red"; "dress"] App.initial_view)).
  - repeat constructor.
  - reflexivity.
Defined.

Lemma caption_bounded_witness :
  Surface.caption [97%N; 32%N; 26085%N] = [97%N; 32%N; 26085%N] /\
  length (Surface.caption (replicate 51 26085%N)) = 53%nat.
Proof.
  split.
  - apply (proj1 (proj2 (caption_bounded [97%N; 32%N; 26085%N]))).
    vm_compute. lia.
  - apply (proj2 (proj2 (caption_bounded (replicate 51 26085%N)))).
    vm_compute. lia.
Defined.
